(** * ConditionalDropdown: the option store and the selection cascade

    A shallow embedding of [src/ConditionalDropdown.tsx]: the data model
    (options, configuration, relations, data store), the helper closures of
    the component ([findDependentDropdowns], [getDropdownOptions],
    [getSelectionPath]) and its handlers ([handleSelection],
    [handleImportOptions], [saveNewOption]) together with the effect that
    installs the default selections, the handlers that lead through the
    dialogs, and the [getReadableSelection] helper of the demonstration
    page ([src/unnamed/part_002]).

    Modelling conventions.
    - A JavaScript string is a [string]; every character stands for one
      UTF-16 code unit in the range U+0000..U+00FF.
    - A [Record<string, T>] is a [gmap string T]; reading a missing key
      gives [None] (JavaScript [undefined]).
    - The React state of the component is one record, [State]; a handler is
      a function from the state in which it is invoked to the state after
      all the updates it requests are applied.  Calls of [toast] and of the
      [onSelectionChange] callback are appended to logs kept in the state.
    - The two walks over the configuration (the recursion of
      [findDependentDropdowns], the loop of [getSelectionPath]) have no
      bound in the source.  They take a [fuel] argument here and return
      [None] when the fuel is exhausted, which stands for a computation
      that does not return.
    - The effect that writes the store to [localStorage] and calls
      [onDataChange] is not part of the model. *)

From stdpp Require Import base option list gmap strings.
From Stdlib Require Import Ascii String NArith DecimalString.

Local Open Scope string_scope.

(** ** Strings *)

Module Str.

(** The characters removed by [String.prototype.trim] and matched by the
    regular expression class [\s], among the code units below U+0100:
    TAB, LF, VT, FF, CR, SPACE and NO-BREAK SPACE. *)
Definition isWhiteSpace (c : ascii) : bool :=
  let n := N_of_ascii c in
  ((9 <=? n) && (n <=? 13) || (n =? 32) || (n =? 160))%N.

Fixpoint trimStart (s : string) : string :=
  match s with
  | EmptyString => EmptyString
  | String c s' => if isWhiteSpace c then trimStart s' else s
  end.

Fixpoint trimEnd (s : string) : string :=
  match s with
  | EmptyString => EmptyString
  | String c s' =>
      match trimEnd s' with
      | EmptyString => if isWhiteSpace c then EmptyString else String c EmptyString
      | r => String c r
      end
  end.

(** [s.trim()] *)
Definition trim (s : string) : string := trimEnd (trimStart s).

(** [s.split('\n')]: never the empty list. *)
Fixpoint splitLines (s : string) : list string :=
  match s with
  | EmptyString => [EmptyString]
  | String c s' =>
      if Ascii.eqb c "010"%char then EmptyString :: splitLines s'
      else match splitLines s' with
           | l :: ls => String c l :: ls
           | [] => [String c EmptyString]
           end
  end.

(** [s.replace(/\s+/g, '-')]: every maximal run of white space becomes
    one hyphen.  [inRun] tells that the previous character was white
    space. *)
Fixpoint replaceRuns (inRun : bool) (s : string) : string :=
  match s with
  | EmptyString => EmptyString
  | String c s' =>
      if isWhiteSpace c
      then (if inRun then replaceRuns true s'
            else String "-"%char (replaceRuns true s'))
      else String c (replaceRuns false s')
  end.

Definition replaceWhitespace (s : string) : string := replaceRuns false s.

(** [toLowerCase] on one code unit below U+0100: A..Z and the accented
    capitals U+00C0..U+00DE (without the multiplication sign U+00D7) move
    up by 32. *)
Definition lowerChar (c : ascii) : ascii :=
  let n := N_of_ascii c in
  if ((65 <=? n) && (n <=? 90)
      || (192 <=? n) && (n <=? 222) && negb (n =? 215))%N
  then ascii_of_N (n + 32) else c.

Fixpoint toLowerCase (s : string) : string :=
  match s with
  | EmptyString => EmptyString
  | String c s' => String (lowerChar c) (toLowerCase s')
  end.

(** [s.replace(pat, '')] with a string pattern: the first occurrence of
    [pat] is removed. *)
Fixpoint removeFirst (pat s : string) : string :=
  if String.prefix pat s then String.substring (String.length pat) (String.length s) s
  else match s with
       | EmptyString => EmptyString
       | String c s' => String c (removeFirst pat s')
       end.

(** [parts.join(sep)] *)
Fixpoint join (sep : string) (parts : list string) : string :=
  match parts with
  | [] => ""
  | [p] => p
  | p :: ps => p ++ sep ++ join sep ps
  end.

(** A number inside a template literal. *)
Definition ofNat (n : nat) : string := NilZero.string_of_uint (Nat.to_uint n).

End Str.

Local Open Scope list_scope.

(** ** Data model *)

(** [interface DropdownOption] *)
Record DropdownOption := mkOption {
  opt_value : string;
  opt_label : string
}.

(** [interface DropdownConfig]; the optional fields are options. *)
Record DropdownConfig := mkConfig {
  cfg_id : string;
  cfg_label : string;
  cfg_options : list DropdownOption;
  cfg_dependsOn : option string;
  cfg_creatable : option bool
}.

(** [interface DropdownRelation] *)
Record DropdownRelation := mkRelation {
  rel_parent : string;
  rel_parentValue : string;
  rel_child : string;
  rel_options : list DropdownOption
}.

(** [interface ConditionalDropdownDataStore] *)
Record DataStore := mkStore {
  store_options : gmap string (list DropdownOption);
  store_relations : list DropdownRelation
}.

(** A call of [toast]. *)
Inductive ToastVariant := Default | Destructive.

Record Toast := mkToast {
  toast_variant : ToastVariant;
  toast_title : string;
  toast_description : string
}.

(** The state of one mounted component. *)
Record State := mkState {
  selections : gmap string string;
  dropdownData : DataStore;
  mounted : bool;                      (* mountedRef.current *)
  initialized : bool;                  (* initializedRef.current *)
  activeDropdownId : option string;    (* string | null *)
  newOptionName : string;
  importText : string;
  initialMenuOpen : bool;
  addOptionModalOpen : bool;
  importModalOpen : bool;
  refreshing : gmap string bool;
  toasts : list Toast;                             (* oldest first *)
  selectionEvents : list (gmap string string)      (* onSelectionChange calls *)
}.

(** JavaScript truthiness of a [string | undefined | null]: only a
    non-empty string is truthy. *)
Definition truthy (o : option string) : bool :=
  match o with
  | Some s => negb (String.eqb s "")
  | None => false
  end.

(** The reserved value of the "Add New Option" entry. *)
Definition ADD_NEW : string := "__add_new__".

(** ** State updates (the [set...] functions of [useState]) *)

Definition set_selections (v : gmap string string) (st : State) : State :=
  mkState v (dropdownData st) (mounted st) (initialized st) (activeDropdownId st)
    (newOptionName st) (importText st) (initialMenuOpen st)
    (addOptionModalOpen st) (importModalOpen st) (refreshing st) (toasts st)
    (selectionEvents st).

Definition set_dropdownData (v : DataStore) (st : State) : State :=
  mkState (selections st) v (mounted st) (initialized st) (activeDropdownId st)
    (newOptionName st) (importText st) (initialMenuOpen st)
    (addOptionModalOpen st) (importModalOpen st) (refreshing st) (toasts st)
    (selectionEvents st).

Definition set_initialized (v : bool) (st : State) : State :=
  mkState (selections st) (dropdownData st) (mounted st) v (activeDropdownId st)
    (newOptionName st) (importText st) (initialMenuOpen st)
    (addOptionModalOpen st) (importModalOpen st) (refreshing st) (toasts st)
    (selectionEvents st).

Definition set_activeDropdownId (v : option string) (st : State) : State :=
  mkState (selections st) (dropdownData st) (mounted st) (initialized st) v
    (newOptionName st) (importText st) (initialMenuOpen st)
    (addOptionModalOpen st) (importModalOpen st) (refreshing st) (toasts st)
    (selectionEvents st).

Definition set_newOptionName (v : string) (st : State) : State :=
  mkState (selections st) (dropdownData st) (mounted st) (initialized st)
    (activeDropdownId st) v (importText st) (initialMenuOpen st)
    (addOptionModalOpen st) (importModalOpen st) (refreshing st) (toasts st)
    (selectionEvents st).

Definition set_importText (v : string) (st : State) : State :=
  mkState (selections st) (dropdownData st) (mounted st) (initialized st)
    (activeDropdownId st) (newOptionName st) v (initialMenuOpen st)
    (addOptionModalOpen st) (importModalOpen st) (refreshing st) (toasts st)
    (selectionEvents st).

Definition set_initialMenuOpen (v : bool) (st : State) : State :=
  mkState (selections st) (dropdownData st) (mounted st) (initialized st)
    (activeDropdownId st) (newOptionName st) (importText st) v
    (addOptionModalOpen st) (importModalOpen st) (refreshing st) (toasts st)
    (selectionEvents st).

Definition set_addOptionModalOpen (v : bool) (st : State) : State :=
  mkState (selections st) (dropdownData st) (mounted st) (initialized st)
    (activeDropdownId st) (newOptionName st) (importText st)
    (initialMenuOpen st) v (importModalOpen st) (refreshing st) (toasts st)
    (selectionEvents st).

Definition set_importModalOpen (v : bool) (st : State) : State :=
  mkState (selections st) (dropdownData st) (mounted st) (initialized st)
    (activeDropdownId st) (newOptionName st) (importText st)
    (initialMenuOpen st) (addOptionModalOpen st) v (refreshing st) (toasts st)
    (selectionEvents st).

Definition set_refreshing (v : gmap string bool) (st : State) : State :=
  mkState (selections st) (dropdownData st) (mounted st) (initialized st)
    (activeDropdownId st) (newOptionName st) (importText st)
    (initialMenuOpen st) (addOptionModalOpen st) (importModalOpen st) v
    (toasts st) (selectionEvents st).

(** [toast({variant, title, description})] *)
Definition toast (t : Toast) (st : State) : State :=
  mkState (selections st) (dropdownData st) (mounted st) (initialized st)
    (activeDropdownId st) (newOptionName st) (importText st)
    (initialMenuOpen st) (addOptionModalOpen st) (importModalOpen st)
    (refreshing st) (toasts st ++ [t]) (selectionEvents st).

(** [if (onSelectionChange) onSelectionChange(s)] *)
Definition onSelectionChange (s : gmap string string) (st : State) : State :=
  mkState (selections st) (dropdownData st) (mounted st) (initialized st)
    (activeDropdownId st) (newOptionName st) (importText st)
    (initialMenuOpen st) (addOptionModalOpen st) (importModalOpen st)
    (refreshing st) (toasts st) (selectionEvents st ++ [s]).

(** ** The component *)

Section Component.

(** The [config] prop: fixed for the life of the component. *)
Variable config : list DropdownConfig.

(** [config.find(d => d.id === i)] *)
Definition findConfig (i : string) : option DropdownConfig :=
  snd <$> list_find (λ d, cfg_id d = i) config.

(** [config.filter(d => d.dependsOn === parentId)] *)
Definition childDropdownsOf (parentId : string) : list DropdownConfig :=
  filter (λ d, cfg_dependsOn d = Some parentId) config.

(** The [forEach] of [findDependentDropdowns]: the descendants of each
    direct child are pushed on [allChildren], left to right. *)
Fixpoint pushDescendants (rec : string → option (list string))
    (children allChildren : list string) : option (list string) :=
  match children with
  | [] => Some allChildren
  | childId :: rest =>
      sub ← rec childId;
      pushDescendants rec rest (allChildren ++ sub)
  end.

(** [findDependentDropdowns(parentId)], lines 173-187.  The source
    recurses on every direct child with no record of the ids already
    seen. *)
Fixpoint findDependentDropdowns (fuel : nat) (parentId : string)
    : option (list string) :=
  match fuel with
  | O => None
  | S fuel' =>
      let directChildren := cfg_id <$> childDropdownsOf parentId in
      pushDescendants (findDependentDropdowns fuel') directChildren directChildren
  end.

(** [relations.find(r => r.parent === p && r.parentValue === pv && r.child === c)]
    together with its index ([findIndex]). *)
Definition findRelation (relations : list DropdownRelation)
    (p pv c : string) : option (nat * DropdownRelation) :=
  list_find (λ r, rel_parent r = p ∧ rel_parentValue r = pv ∧ rel_child r = c)
    relations.

(** [getDropdownOptions(dropdown)], lines 190-217, as a function of the
    state it closes over.  The first test of the source guards against a
    missing store or dropdown, which the types exclude. *)
Definition getDropdownOptions (data : DataStore) (sel : gmap string string)
    (dropdown : DropdownConfig) : list DropdownOption :=
  if negb (truthy (cfg_dependsOn dropdown)) then
    default (cfg_options dropdown) (store_options data !! cfg_id dropdown)
  else
    let dependsOn := default "" (cfg_dependsOn dropdown) in
    let parentValue := sel !! dependsOn in
    if negb (truthy parentValue) then []
    else
      match findRelation (store_relations data) dependsOn
              (default "" parentValue) (cfg_id dropdown) with
      | Some (_, relation) => rel_options relation
      | None => []
      end.

(** The label shown for the value selected in an ancestor, lines 240-266. *)
Definition displayLabelOf (data : DataStore) (sel : gmap string string)
    (parentDropdown : DropdownConfig) (parentId parentValue : string) : string :=
  let labelIn (opts : list DropdownOption) :=
    match list_find (λ opt, opt_value opt = parentValue) opts with
    | Some (_, option) => opt_label option
    | None => parentValue
    end in
  if negb (truthy (cfg_dependsOn parentDropdown)) then
    labelIn (default [] (store_options data !! parentId))
  else
    let grandparentId := default "" (cfg_dependsOn parentDropdown) in
    let grandparentValue := sel !! grandparentId in
    if truthy grandparentValue then
      match findRelation (store_relations data) grandparentId
              (default "" grandparentValue) parentId with
      | Some (_, relation) => labelIn (rel_options relation)
      | None => parentValue
      end
    else parentValue.

(** The [while (parentId)] loop of [getSelectionPath], lines 233-273. *)
Fixpoint walkUp (fuel : nat) (data : DataStore) (sel : gmap string string)
    (parentId : string) (pathLabels : list string) : option (list string) :=
  match fuel with
  | O => None
  | S fuel' =>
      if negb (truthy (Some parentId)) then Some pathLabels
      else
        match findConfig parentId with
        | None => Some pathLabels
        | Some parentDropdown =>
            let parentValue := sel !! parentId in
            if negb (truthy parentValue) then Some pathLabels
            else
              let displayLabel :=
                displayLabelOf data sel parentDropdown parentId
                  (default "" parentValue) in
              walkUp fuel' data sel (default "" (cfg_dependsOn parentDropdown))
                (displayLabel :: pathLabels)
        end
  end.

(** The separator of the breadcrumb: a blank, a rightwards arrow (U+2192)
    and a blank.  The arrow lies outside the range of the string model
    and is kept as its three UTF-8 bytes; it occurs in messages only. *)
Definition ARROW : string := " → ".

(** [getSelectionPath(dropdownId)], lines 220-277. *)
Definition getSelectionPath (fuel : nat) (data : DataStore)
    (sel : gmap string string) (dropdownId : string) : option string :=
  match findConfig dropdownId with
  | None => Some ""
  | Some dropdown =>
      if negb (truthy (cfg_dependsOn dropdown)) then Some ""
      else
        pathLabels ← walkUp fuel data sel (default "" (cfg_dependsOn dropdown)) [];
        Some (match pathLabels with
              | [] => ""
              | _ => " for " +:+ Str.join ARROW pathLabels
              end)
  end.

End Component.

Section Handlers.

Variable config : list DropdownConfig.

(** *** Default selections: the effect of lines 141-170 *)

(** The body of [config.forEach] at lines 153-160. *)
Definition defaultStep (data : DataStore)
    (initialSelections : gmap string string) (dropdown : DropdownConfig)
    : gmap string string :=
  if negb (truthy (cfg_dependsOn dropdown)) then
    match default (cfg_options dropdown)
            (store_options data !! cfg_id dropdown) with
    | first :: _ => <[cfg_id dropdown := opt_value first]> initialSelections
    | [] => initialSelections
    end
  else initialSelections.

Definition initialSelectionsOf (data : DataStore) : gmap string string :=
  foldl (defaultStep data) ∅ config.

(** One run of the effect.  [Object.keys(m).length > 0] is [m ≠ ∅]. *)
Definition initializeDefaults (st : State) : State :=
  if negb (mounted st) || initialized st then st
  else if negb (bool_decide (selections st = ∅)) then set_initialized true st
  else
    let initialSelections := initialSelectionsOf (dropdownData st) in
    if negb (bool_decide (initialSelections = ∅)) then
      onSelectionChange initialSelections
        (set_initialized true (set_selections initialSelections st))
    else st.

(** *** Selecting a value: [handleSelection], lines 280-312 *)

(** [dependentDropdowns.forEach(depId => { newSelections[depId] = '' })] *)
Definition clearDependents (dependentDropdowns : list string)
    (newSelections : gmap string string) : gmap string string :=
  foldl (λ acc depId, <[depId := ""]> acc) newSelections dependentDropdowns.

(** The handler sets the loading flag, waits 200 ms and then commits; the
    state after the commit is returned.  The snapshot it extends is the
    one of the state in which it was invoked. *)
Definition handleSelection (fuel : nat) (dropdownId value : string)
    (st : State) : option State :=
  if String.eqb value ADD_NEW then
    Some (set_initialMenuOpen true
            (set_newOptionName ""
               (set_activeDropdownId (Some dropdownId) st)))
  else
    let st1 := set_refreshing (<[dropdownId := true]> (refreshing st)) st in
    let newSelections := <[dropdownId := value]> (selections st) in
    dependentDropdowns ← findDependentDropdowns config fuel dropdownId;
    let newSelections := clearDependents dependentDropdowns newSelections in
    Some (onSelectionChange newSelections
            (set_refreshing (<[dropdownId := false]> (refreshing st1))
               (set_selections newSelections st1))).

(** *** Writing a new option into the store *)

(** Lines 388-394 and 501-510: the option is appended to the root list of
    the dropdown, which is created when missing. *)
Definition addRootOption (dropdownId : string) (newOption : DropdownOption)
    (data : DataStore) : DataStore :=
  mkStore
    (<[dropdownId := default [] (store_options data !! dropdownId) ++ [newOption]]>
       (store_options data))
    (store_relations data).

Definition pushOption (newOption : DropdownOption) (r : DropdownRelation)
    : DropdownRelation :=
  mkRelation (rel_parent r) (rel_parentValue r) (rel_child r)
    (rel_options r ++ [newOption]).

(** Lines 400-418 and 516-534: the option is appended to the first
    relation of the context, or a new relation is pushed. *)
Definition addRelationOption (parent parentValue dropdownId : string)
    (newOption : DropdownOption) (data : DataStore) : DataStore :=
  mkStore (store_options data)
    (match findRelation (store_relations data) parent parentValue dropdownId with
     | Some (relationIndex, _) =>
         alter (pushOption newOption) relationIndex (store_relations data)
     | None =>
         store_relations data
           ++ [mkRelation parent parentValue dropdownId [newOption]]
     end).

(** Lines 421-430 and 537-546: one empty relation is pushed for every
    dropdown that depends on [dropdownId]. *)
Definition pushChildRelations (dropdownId value : string) (data : DataStore)
    : DataStore :=
  mkStore (store_options data)
    (store_relations data
       ++ ((λ child, mkRelation dropdownId value (cfg_id child) [])
             <$> childDropdownsOf config dropdownId)).

(** *** Bulk import: [handleImportOptions], lines 335-462 *)

(** [importText.split('\n').map(line => line.trim()).filter(line => line.length > 0)] *)
Definition importedLines (text : string) : list string :=
  filter (λ line, line ≠ "") (Str.trim <$> Str.splitLines text).

(** The test of lines 372-375, against the options the handler read
    before the loop. *)
Definition existsInImport (existingOptions : list DropdownOption)
    (value label : string) : bool :=
  existsb (λ opt,
      String.eqb (Str.toLowerCase (opt_value opt)) (Str.toLowerCase value)
      || String.eqb (Str.toLowerCase (opt_label opt)) (Str.toLowerCase label))
    existingOptions.

(** What the loop over the lines builds: the copy of the store and the two
    lists of labels. *)
Record ImportProgress := mkProgress {
  newData : DataStore;
  addedOptions : list string;
  duplicateOptions : list string
}.

(** The body of [lines.forEach], lines 364-433.  [existingOptions] is the
    list computed once at line 360 from the state; the loop writes to
    [newData], a deep copy, so [existingOptions] never sees the options
    added by earlier lines. *)
Definition importLine (sel : gmap string string)
    (activeDropdown : DropdownConfig) (activeId : string)
    (existingOptions : list DropdownOption)
    (acc : ImportProgress) (line : string) : ImportProgress :=
  let label := Str.trim line in
  let value := Str.replaceWhitespace label in
  if existsInImport existingOptions value label then
    mkProgress (newData acc) (addedOptions acc) (duplicateOptions acc ++ [label])
  else
    let newOption := mkOption value label in
    let added (data : DataStore) :=
      mkProgress (pushChildRelations activeId value data)
        (addedOptions acc ++ [label]) (duplicateOptions acc) in
    if negb (truthy (cfg_dependsOn activeDropdown)) then
      added (addRootOption activeId newOption (newData acc))
    else
      let dependsOn := default "" (cfg_dependsOn activeDropdown) in
      let parentValue := sel !! dependsOn in
      if negb (truthy parentValue) then acc
      else
        added (addRelationOption dependsOn (default "" parentValue) activeId
                 newOption (newData acc)).

Definition importLines (data : DataStore) (sel : gmap string string)
    (activeDropdown : DropdownConfig) (activeId : string)
    (lines : list string) : ImportProgress :=
  foldl (importLine sel activeDropdown activeId
           (getDropdownOptions data sel activeDropdown))
    (mkProgress data [] []) lines.

Definition QUOTE : string := String (ascii_of_N 34) "".
Definition NEWLINE : string := String (ascii_of_N 10) "".

(** The [Path: ...] line of the success messages, lines 454-456 and
    574-575. *)
Definition pathDisplayOf (fuel : nat) (data : DataStore)
    (sel : gmap string string) (dropdown : DropdownConfig)
    (activeId : string) : option string :=
  if truthy (cfg_dependsOn dropdown) then
    path ← getSelectionPath config fuel data sel activeId;
    Some ("Path: " +:+ Str.removeFirst " for " path)
  else Some "".

Definition noNewOptionsToast (duplicates : list string) : Toast :=
  mkToast Destructive "No new options added"
    (match duplicates with
     | [] => "No valid options found to add."
     | _ =>
         "All options already exist: " +:+ Str.join ", " (take 3 duplicates)
         +:+ (if Nat.ltb 3 (List.length duplicates) then "..." else "")
     end).

Definition importedToast (added duplicates : nat) (dropdownLabel pathDisplay : string)
    : Toast :=
  mkToast Default "Options Imported"
    ("Added " +:+ Str.ofNat added +:+ " new " +:+ QUOTE +:+ dropdownLabel
     +:+ QUOTE +:+ " options"
     +:+ (if Nat.ltb 0 duplicates
          then " (" +:+ Str.ofNat duplicates +:+ " duplicates skipped)" else "")
     +:+ "."
     +:+ (if truthy (Some pathDisplay) then NEWLINE +:+ pathDisplay else "")).

Definition handleImportOptions (fuel : nat) (st : State) : option State :=
  if negb (truthy (activeDropdownId st))
     || negb (truthy (Some (Str.trim (importText st)))) then Some st
  else
    let activeId := default "" (activeDropdownId st) in
    match findConfig config activeId with
    | None => Some st
    | Some activeDropdown =>
        match importedLines (importText st) with
        | [] =>
            Some (toast (mkToast Destructive "No options to import"
                           "Please enter at least one option, with each option on a new line.")
                    st)
        | lines =>
            let result :=
              importLines (dropdownData st) (selections st) activeDropdown
                activeId lines in
            let st1 := set_importModalOpen false st in
            match addedOptions result with
            | [] => Some (toast (noNewOptionsToast (duplicateOptions result)) st1)
            | _ =>
                let st2 := set_dropdownData (newData result) st1 in
                pathDisplay ← pathDisplayOf fuel (dropdownData st) (selections st)
                                activeDropdown activeId;
                Some (toast (importedToast (List.length (addedOptions result))
                               (List.length (duplicateOptions result))
                               (cfg_label activeDropdown) pathDisplay)
                        st2)
            end
        end
    end.

(** *** Adding one option: [saveNewOption], lines 465-582 *)

(** The test of lines 484-486: only the values are compared. *)
Definition existsInSave (existingOptions : list DropdownOption)
    (value : string) : bool :=
  existsb (λ opt,
      String.eqb (Str.toLowerCase (opt_value opt)) (Str.toLowerCase value))
    existingOptions.

(** The callback given to [setTimeout], lines 555-581.  [sel] and [data]
    are the snapshot and the store of the state in which
    [saveNewOption] ran, which the callback closes over. *)
Definition selectNewOption (fuel : nat) (dropdown : DropdownConfig)
    (activeId value label : string) (sel : gmap string string)
    (data : DataStore) (st : State) : option State :=
  let newSelections := <[activeId := value]> sel in
  dependentDropdowns ← findDependentDropdowns config fuel activeId;
  let newSelections := clearDependents dependentDropdowns newSelections in
  let st1 := onSelectionChange newSelections (set_selections newSelections st) in
  pathDisplay ← pathDisplayOf fuel data sel dropdown activeId;
  Some (toast (mkToast Default "Option Added"
                 (QUOTE +:+ label +:+ QUOTE +:+ " has been added to " +:+ QUOTE
                  +:+ cfg_label dropdown +:+ QUOTE +:+ " options."
                  +:+ (if truthy (Some pathDisplay)
                       then NEWLINE +:+ pathDisplay else "")))
          st1).

Definition saveNewOption (fuel : nat) (st : State) : option State :=
  if negb (truthy (activeDropdownId st))
     || negb (truthy (Some (Str.trim (newOptionName st)))) then Some st
  else
    let activeId := default "" (activeDropdownId st) in
    match findConfig config activeId with
    | None => Some st
    | Some dropdown =>
        let label := Str.trim (newOptionName st) in
        let value := Str.replaceWhitespace label in
        let newOption := mkOption value label in
        let existingOptions :=
          getDropdownOptions (dropdownData st) (selections st) dropdown in
        if existsInSave existingOptions value then
          Some (toast (mkToast Destructive "Option already exists"
                         (QUOTE +:+ label +:+ QUOTE
                          +:+ " already exists in this dropdown."))
                  st)
        else
          let saved (data : DataStore) :=
            let st1 :=
              set_dropdownData (pushChildRelations activeId value data)
                (set_addOptionModalOpen false st) in
            selectNewOption fuel dropdown activeId value label (selections st)
              (dropdownData st) st1 in
          if negb (truthy (cfg_dependsOn dropdown)) then
            saved (addRootOption activeId newOption (dropdownData st))
          else
            let dependsOn := default "" (cfg_dependsOn dropdown) in
            let parentValue := selections st !! dependsOn in
            if negb (truthy parentValue) then Some st
            else
              saved (addRelationOption dependsOn (default "" parentValue)
                       activeId newOption (dropdownData st))
    end.

End Handlers.

(** ** Construction *)

(** The initial value of [dropdownData], lines 77-109: the [initialData]
    prop, else what was saved under [storeKey] (absent when nothing was
    saved or it does not parse), else the options of the configuration. *)
Definition initialDropdownData (config : list DropdownConfig)
    (initialData savedData : option DataStore) : DataStore :=
  match initialData, savedData with
  | Some data, _ => data
  | None, Some data => data
  | None, None =>
      mkStore
        (foldl (λ options dropdown,
                  <[cfg_id dropdown :=
                      match cfg_options dropdown with
                      | [] => []
                      | opts => opts
                      end]> options)
           ∅ config)
        []
  end.

(** The state once the component is mounted: nothing is selected, every
    modal is closed.  The configuration is stored as it is given. *)
Definition mount (config : list DropdownConfig)
    (initialData savedData : option DataStore) : State :=
  mkState ∅ (initialDropdownData config initialData savedData) true false None
    "" "" false false false ∅ [] [].

(** ** Notions the statements are written with *)

(** The test [dropdown.dependsOn] of the source: a dropdown is dependent
    when its [dependsOn] is a non-empty string, and root-level otherwise. *)
Definition isDependent (d : DropdownConfig) : bool := truthy (cfg_dependsOn d).

(** [descendant config p x]: [x] is reached from [p] by following one or
    more [dependsOn] edges backwards (children, grandchildren, ...). *)
Inductive descendant (config : list DropdownConfig) (p : string) : string → Prop :=
  | descendant_child d :
      d ∈ config → cfg_dependsOn d = Some p → descendant config p (cfg_id d)
  | descendant_below d x :
      d ∈ config → cfg_dependsOn d = Some p →
      descendant config (cfg_id d) x → descendant config p x.

(** A configuration is acyclic when its ids can be ranked so that every
    dropdown ranks strictly below the dropdown it depends on. *)
Definition respectsRank (rank : string → nat) (d : DropdownConfig) : bool :=
  match cfg_dependsOn d with
  | Some p => Nat.ltb (rank (cfg_id d)) (rank p)
  | None => true
  end.

Definition acyclic (config : list DropdownConfig) : Prop :=
  ∃ rank : string → nat, forallb (respectsRank rank) config = true.

Definition maxRank (rank : string → nat) (config : list DropdownConfig) : nat :=
  foldr (λ d m, Nat.max (rank (cfg_id d)) m) 0 config.

(** The triple that identifies a relation. *)
Definition relationKey (r : DropdownRelation) : string * string * string :=
  (rel_parent r, rel_parentValue r, rel_child r).

(** A text all of whose characters are white space. *)
Fixpoint allWhiteSpace (s : string) : bool :=
  match s with
  | EmptyString => true
  | String c s' => Str.isWhiteSpace c && allWhiteSpace s'
  end.

(** The verdict of lines 372-375 on one line of a batch. *)
Definition isDuplicateLine (existingOptions : list DropdownOption)
    (line : string) : bool :=
  existsInImport existingOptions
    (Str.replaceWhitespace (Str.trim line)) (Str.trim line).

(** There is a context to write to: the dropdown is root-level, or its
    parent has a selected value. *)
Definition hasContext (sel : gmap string string) (d : DropdownConfig) : bool :=
  negb (isDependent d) || truthy (sel !! default "" (cfg_dependsOn d)).

(** ** Sample configurations and states *)

Module Sample.

(** A chain of three dropdowns, as in the demonstration page
    (device type, brand, series). *)
Definition dropdownA : DropdownConfig :=
  mkConfig "a" "A" [mkOption "x" "X"; mkOption "y" "Y"] None (Some true).
Definition dropdownB : DropdownConfig := mkConfig "b" "B" [] (Some "a") (Some true).
Definition dropdownC : DropdownConfig := mkConfig "c" "C" [] (Some "b") (Some true).

Definition chain : list DropdownConfig := [dropdownA; dropdownB; dropdownC].

Definition chainRank (i : string) : nat :=
  if String.eqb i "a" then 2 else if String.eqb i "b" then 1 else 0.

(** A dropdown that depends on itself. *)
Definition loop : list DropdownConfig :=
  [ mkConfig "a" "A" [] (Some "a") (Some true) ].

(** The state of a component that has just been mounted with the store
    [data]. *)
Definition fresh (data : DataStore) : State :=
  mkState ∅ data true false None "" "" false false false ∅ [] [].

(** The chain, mounted with nothing saved before, after the effect has
    installed its default selection [a = x]. *)
Definition started : State := initializeDefaults chain (mount chain None None).

(** The user asks to add options to [dropdownId] and types [text] in the
    import dialog, or [name] in the single-option dialog. *)
Definition importing (dropdownId text : string) (st : State) : State :=
  set_importText text (set_activeDropdownId (Some dropdownId) st).

Definition naming (dropdownId name : string) (st : State) : State :=
  set_newOptionName name (set_activeDropdownId (Some dropdownId) st).

Definition redRedBlue : string := "Red" +:+ NEWLINE +:+ "red" +:+ NEWLINE +:+ "Blue".

Definition blankText : string := "   " +:+ NEWLINE +:+ "  " +:+ NEWLINE.

(** [Foo] is added to [b] under [a = x]; [a] is changed to [y]; [Foo] is
    added to [b] again, now under [a = y]. *)
Definition fooTwice : option State :=
  s1 ← saveNewOption chain 5 (naming "b" "Foo" started);
  s2 ← handleSelection chain 5 "a" "y" s1;
  saveNewOption chain 5 (naming "b" "Foo" s2).

(** [Red] and then [red] are added to [b] under [a = x], one at a time. *)
Definition redThenRed : option State :=
  s1 ← saveNewOption chain 5 (naming "b" "Red" started);
  saveNewOption chain 5 (naming "b" "red" s1).

(** One root dropdown whose seed option has a value that is not derived
    from its label. *)
Definition fruit : list DropdownConfig :=
  [ mkConfig "f" "Fruit" [mkOption "1" "apple"] None (Some true) ].

Definition fruitStarted : State :=
  initializeDefaults fruit (mount fruit None None).

End Sample.

(** ** The dialogs *)

(** [handleAddSingleOption()], lines 322-325. *)
Definition handleAddSingleOption (st : State) : State :=
  set_addOptionModalOpen true (set_initialMenuOpen false st).

(** [handleOpenImportModal()], lines 328-332. *)
Definition handleOpenImportModal (st : State) : State :=
  set_importModalOpen true (set_importText "" (set_initialMenuOpen false st)).

(** The whole path of a single addition through the dialogs: the sentinel
    is chosen in the dropdown, the menu leads to the single-option dialog,
    [name] is typed (line 987) and the dialog is confirmed (line 890). *)
Definition singleAddFlow (config : list DropdownConfig) (fuel : nat)
    (dropdownId name : string) (st : State) : option State :=
  s1 ← handleSelection config fuel dropdownId ADD_NEW st;
  saveNewOption config fuel (set_newOptionName name (handleAddSingleOption s1)).

(** The same for a bulk import: the menu leads to the import dialog,
    [text] is typed (line 1161) and the dialog is confirmed (line 1063). *)
Definition bulkImportFlow (config : list DropdownConfig) (fuel : nat)
    (dropdownId text : string) (st : State) : option State :=
  s1 ← handleSelection config fuel dropdownId ADD_NEW st;
  handleImportOptions config fuel (set_importText text (handleOpenImportModal s1)).

(** ** The component around the import handler *)

(** Stores are compared where the dependencies of an effect are. *)
#[global] Instance DropdownOption_eq_dec : EqDecision DropdownOption.
Proof. solve_decision. Defined.

#[global] Instance DropdownRelation_eq_dec : EqDecision DropdownRelation.
Proof. solve_decision. Defined.

#[global] Instance DataStore_eq_dec : EqDecision DataStore.
Proof. solve_decision. Defined.

(** The render that follows a handler.  The effect of lines 141-170 has
    the dependencies [config, dropdownData, onSelectionChange, selections]
    (line 170): React runs it again after a render in which one of them
    has changed.  [config] and [onSelectionChange] are props and stay as
    they are; [before] is the state the handler started from and [after]
    the state it leaves.  The two states are compared by value: the
    handlers set the store only to a copy to which options were appended,
    and the snapshot only through [handleSelection]. *)
Definition rerender (config : list DropdownConfig) (before after : State) : State :=
  if bool_decide (dropdownData after = dropdownData before
                  ∧ selections after = selections before)
  then after
  else initializeDefaults config after.

(** A bulk import as the component performs it: the handler, then the
    render that follows it. *)
Definition bulkImport (config : list DropdownConfig) (fuel : nat) (st : State)
    : option State :=
  st' ← handleImportOptions config fuel st;
  Some (rerender config st st').

(** [okButtonProps.disabled] of the import dialog, line 1066:
    [!importText.trim()]. *)
Definition importOkDisabled (st : State) : bool :=
  negb (truthy (Some (Str.trim (importText st)))).

(** The [Import] button of the dialog, lines 1063-1066: [onOk] is
    [handleImportOptions], and a disabled button does not call it. *)
Definition confirmImport (config : list DropdownConfig) (fuel : nat) (st : State)
    : option State :=
  if importOkDisabled st then Some st else handleImportOptions config fuel st.

(** ** The demonstration page *)

(** [option?.label || value] *)
Definition labelOr (value : string) (found : option (nat * DropdownOption)) : string :=
  match found with
  | Some (_, option) => if truthy (Some (opt_label option)) then opt_label option else value
  | None => value
  end.

(** [getReadableSelection(key, value)] of the demonstration page, as a
    function of the configuration, of the store the page holds ([null]
    until the component reports one) and of the snapshot it holds. *)
Definition getReadableSelection (dropdownConfig : list DropdownConfig)
    (dropdownData : option DataStore) (sel : gmap string string)
    (key value : string) : string :=
  if negb (truthy (Some value)) then ""
  else
    match findConfig dropdownConfig key with
    | None => value
    | Some dropdown =>
        if negb (truthy (cfg_dependsOn dropdown)) then
          let baseOptions :=
            default (cfg_options dropdown)
              (data ← dropdownData; store_options data !! key) in
          labelOr value (list_find (λ opt, opt_value opt = value) baseOptions)
        else
          let dependsOn := default "" (cfg_dependsOn dropdown) in
          let parentValue := sel !! dependsOn in
          match dropdownData with
          | Some data =>
              if negb (truthy parentValue) then value
              else
                match findRelation (store_relations data) dependsOn
                        (default "" parentValue) key with
                | Some (_, relation) =>
                    labelOr value
                      (list_find (λ opt, opt_value opt = value) (rel_options relation))
                | None => value
                end
          | None => value
          end
    end.

(** ** Further notions *)

(** A text without any white space character. *)
Fixpoint noWhiteSpace (s : string) : bool :=
  match s with
  | EmptyString => true
  | String c s' => negb (Str.isWhiteSpace c) && noWhiteSpace s'
  end.

(** A text with a line feed in it. *)
Fixpoint hasNewline (s : string) : bool :=
  match s with
  | EmptyString => false
  | String c s' => Ascii.eqb c "010"%char || hasNewline s'
  end.

(** The option both handlers build from a trimmed label, lines 382-385 and
    477-480. *)
Definition optionOf (label : string) : DropdownOption :=
  mkOption (Str.replaceWhitespace label) label.

(** An option whose value is the one the handlers derive from its label. *)
Definition derived (o : DropdownOption) : Prop :=
  opt_value o = Str.replaceWhitespace (opt_label o).

(** The list the handlers append to: what is stored for the context of the
    dropdown, without the fall-back to the options of the configuration
    that [getDropdownOptions] has for a root-level dropdown. *)
Definition storedOptions (data : DataStore) (sel : gmap string string)
    (d : DropdownConfig) : list DropdownOption :=
  if isDependent d then getDropdownOptions data sel d
  else default [] (store_options data !! cfg_id d).

(** The body of [config.forEach] at lines 100-106. *)
Definition seedStep (options : gmap string (list DropdownOption))
    (dropdown : DropdownConfig) : gmap string (list DropdownOption) :=
  <[cfg_id dropdown := match cfg_options dropdown with
                       | [] => []
                       | opts => opts
                       end]> options.

(** The store after one accepted option, lines 387-430 and 500-546: the
    option is appended to the list of its context, then the empty
    relations of the children are pushed. *)
Definition insertOption (config : list DropdownConfig)
    (sel : gmap string string) (d : DropdownConfig) (activeId : string)
    (o : DropdownOption) (data : DataStore) : DataStore :=
  pushChildRelations config activeId (opt_value o)
    (if isDependent d
     then addRelationOption (default "" (cfg_dependsOn d))
            (default "" (sel !! default "" (cfg_dependsOn d))) activeId o data
     else addRootOption activeId o data).

(** [data'] holds everything [data] holds, in the same places, with
    options added at the end of lists only. *)
Definition storeExtends (data data' : DataStore) : Prop :=
  (∀ k l, store_options data !! k = Some l →
     ∃ l', store_options data' !! k = Some l' ∧ l `prefix_of` l') ∧
  (∀ i r, store_relations data !! i = Some r →
     ∃ r', store_relations data' !! i = Some r' ∧
           relationKey r' = relationKey r ∧
           rel_options r `prefix_of` rel_options r').

(** *** More samples *)

Module Demo.

(** A store that holds nothing. *)
Definition emptyData : DataStore := mkStore ∅ [].

(** A root-level dropdown without options, with one child. *)
Definition bare : list DropdownConfig :=
  [ mkConfig "r" "Root" [] None (Some true);
    mkConfig "s" "Sub" [] (Some "r") (Some true) ].

End Demo.

(** ** The descendants of a dropdown *)

Section Descendants.

Variable config : list DropdownConfig.

Lemma pushDescendants_Some rec children acc r :
  pushDescendants rec children acc = Some r →
  (∀ c, c ∈ children → is_Some (rec c)) ∧
  (∀ x, x ∈ r ↔ x ∈ acc ∨ ∃ c sub, c ∈ children ∧ rec c = Some sub ∧ x ∈ sub).
Proof.
  revert acc. induction children as [|c cs IH]; intros acc H; simpl in H.
  - injection H as <-. split.
    + intros c Hc. by apply elem_of_nil in Hc.
    + intros x. split; [by left|].
      intros [?|(c & sub & Hc & _)]; [done|]. by apply elem_of_nil in Hc.
  - destruct (rec c) as [sub|] eqn:Hrec; simpl in H; [|done].
    destruct (IH _ H) as [Hall Hin]. split.
    + intros c' [->|Hc']%elem_of_cons; [by rewrite Hrec|by apply Hall].
    + intros x. rewrite Hin, elem_of_app. split.
      * intros [[?|?]|(c' & sub' & Hc' & Hr' & Hx)].
        -- by left.
        -- right. exists c, sub. by rewrite elem_of_cons; auto.
        -- right. exists c', sub'. by rewrite elem_of_cons; auto.
      * intros [?|(c' & sub' & [->|Hc']%elem_of_cons & Hr' & Hx)].
        -- by left; left.
        -- left; right. congruence.
        -- right. by exists c', sub'.
Qed.

Lemma pushDescendants_is_Some rec children acc :
  (∀ c, c ∈ children → is_Some (rec c)) →
  is_Some (pushDescendants rec children acc).
Proof.
  revert acc. induction children as [|c cs IH]; intros acc Hall; simpl; [done|].
  destruct (Hall c) as [sub ->]; [by left|]. simpl.
  apply IH. intros c' Hc'. apply Hall. by right.
Qed.

Lemma elem_of_directChildren (p x : string) :
  x ∈ cfg_id <$> childDropdownsOf config p ↔
  ∃ d, d ∈ config ∧ cfg_dependsOn d = Some p ∧ x = cfg_id d.
Proof.
  unfold childDropdownsOf. rewrite list_elem_of_fmap. split.
  - intros (d & -> & [Hp Hd]%list_elem_of_filter). eauto.
  - intros (d & Hd & Hp & ->). exists d. by rewrite list_elem_of_filter.
Qed.

(** The list computed by [findDependentDropdowns] holds exactly the
    descendants. *)
Lemma findDependentDropdowns_descendant fuel p r :
  findDependentDropdowns config fuel p = Some r →
  ∀ x, x ∈ r ↔ descendant config p x.
Proof.
  revert p r. induction fuel as [|fuel IH]; intros p r H; [done|].
  simpl in H. apply pushDescendants_Some in H as [Hall Hin].
  intros x. rewrite Hin. split.
  - intros [Hx|(c & sub & Hc & Hsub & Hx)].
    + apply elem_of_directChildren in Hx as (d & Hd & Hp & ->).
      by apply descendant_child.
    + apply elem_of_directChildren in Hc as (d & Hd & Hp & ->).
      apply descendant_below with d; [done..|]. by apply (IH _ _ Hsub).
  - intros Hdesc. inversion Hdesc as [d Hd Hp|d y Hd Hp Hbelow]; subst.
    + left. apply elem_of_directChildren. eauto.
    + right. destruct (Hall (cfg_id d)) as [sub Hsub].
      { apply elem_of_directChildren. eauto. }
      exists (cfg_id d), sub. split_and!; [|done|by apply (IH _ _ Hsub)].
      apply elem_of_directChildren. eauto.
Qed.

Lemma respectsRank_spec rank :
  forallb (respectsRank rank) config = true →
  ∀ d p, d ∈ config → cfg_dependsOn d = Some p → rank (cfg_id d) < rank p.
Proof.
  intros H d p Hd Hp. rewrite forallb_forall in H.
  specialize (H d). unfold respectsRank in H. rewrite Hp in H.
  apply Nat.ltb_lt, H. by apply list_elem_of_In.
Qed.

Lemma descendant_rank rank p x :
  forallb (respectsRank rank) config = true →
  descendant config p x → rank x < rank p.
Proof.
  intros Hr Hdesc. induction Hdesc as [p d Hd Hp|p d x Hd Hp _ IH].
  - by eapply respectsRank_spec.
  - pose proof (respectsRank_spec rank Hr d p Hd Hp). lia.
Qed.

(** On a ranked configuration the recursion bottoms out: any fuel above the
    rank of the starting id is enough. *)
Lemma findDependentDropdowns_terminates rank fuel p :
  forallb (respectsRank rank) config = true →
  rank p < fuel → is_Some (findDependentDropdowns config fuel p).
Proof.
  intros Hr. revert p. induction fuel as [|fuel IH]; intros p Hlt; [lia|].
  simpl. apply pushDescendants_is_Some. intros c Hc.
  apply elem_of_directChildren in Hc as (d & Hd & Hp & ->).
  apply IH. pose proof (respectsRank_spec rank Hr d p Hd Hp). lia.
Qed.

Lemma clearDependents_lookup ds (m : gmap string string) k :
  clearDependents ds m !! k = if decide (k ∈ ds) then Some "" else m !! k.
Proof.
  unfold clearDependents. revert m.
  induction ds as [|d ds IH]; intros m; cbn [foldl].
  - by rewrite decide_False by apply not_elem_of_nil.
  - rewrite IH. destruct (decide (k = d)) as [->|Hne].
    + rewrite lookup_insert_eq, (decide_True (P := d ∈ d :: ds)) by (by left).
      by case_decide.
    + rewrite lookup_insert_ne by done.
      destruct (decide (k ∈ ds)) as [Hin|Hin].
      * by rewrite decide_True by (by right).
      * rewrite decide_False; [done|]. by intros [?|?]%elem_of_cons.
Qed.

Lemma pushDescendants_mono (rec rec' : string → option (list string)) children acc r :
  (∀ c sub, c ∈ children → rec c = Some sub → rec' c = Some sub) →
  pushDescendants rec children acc = Some r →
  pushDescendants rec' children acc = Some r.
Proof.
  revert acc. induction children as [|c cs IH]; intros acc Hrec H; [done|].
  simpl in *. destruct (rec c) as [sub|] eqn:Hc; [|done].
  rewrite (Hrec c sub) by (done || by left). simpl in *.
  apply IH; [|done]. intros c' sub' Hc'. apply Hrec. by right.
Qed.

(** More fuel never changes a result. *)
Lemma findDependentDropdowns_S fuel p r :
  findDependentDropdowns config fuel p = Some r →
  findDependentDropdowns config (S fuel) p = Some r.
Proof.
  revert p r. induction fuel as [|fuel IH]; intros p r H; [done|].
  change (pushDescendants (findDependentDropdowns config (S fuel))
            (cfg_id <$> childDropdownsOf config p)
            (cfg_id <$> childDropdownsOf config p) = Some r).
  eapply pushDescendants_mono; [|exact H]. intros c sub _. apply IH.
Qed.

Lemma findDependentDropdowns_le fuel fuel' p r :
  (fuel ≤ fuel')%nat →
  findDependentDropdowns config fuel p = Some r →
  findDependentDropdowns config fuel' p = Some r.
Proof.
  induction 1 as [|fuel' _ IH]; [done|]. intros H.
  by apply findDependentDropdowns_S, IH.
Qed.

(** A call that returns has called itself on every descendant. *)
Lemma findDependentDropdowns_calls fuel p r x :
  findDependentDropdowns config (S fuel) p = Some r →
  descendant config p x →
  is_Some (findDependentDropdowns config fuel x).
Proof.
  revert p r x. induction fuel as [|fuel IH]; intros p r x H Hdesc.
  - simpl in H. apply pushDescendants_Some in H as [Hall _].
    destruct Hdesc as [d Hd Hp|d y Hd Hp _];
      (destruct (Hall (cfg_id d)) as [? ?];
       [apply elem_of_directChildren; eauto|done]).
  - pose proof H as H'. cbn [findDependentDropdowns] in H'.
    apply pushDescendants_Some in H' as [Hall _].
    destruct Hdesc as [d Hd Hp|d y Hd Hp Hbelow].
    + apply Hall, elem_of_directChildren. eauto.
    + destruct (Hall (cfg_id d)) as [sub Hsub].
      { apply elem_of_directChildren. eauto. }
      destruct (IH _ _ _ Hsub Hbelow) as [r' Hr'].
      exists r'. by apply findDependentDropdowns_S.
Qed.

(** An id that is its own descendant starts a recursion that never
    returns. *)
Lemma findDependentDropdowns_cycle fuel p :
  descendant config p p → findDependentDropdowns config fuel p = None.
Proof.
  intros Hcycle. induction fuel as [|fuel IH]; [done|].
  destruct (findDependentDropdowns config (S fuel) p) as [r|] eqn:H; [|done].
  destruct (findDependentDropdowns_calls _ _ _ _ H Hcycle) as [r' Hr'].
  congruence.
Qed.

(** What [handleSelection] returns for a value other than the sentinel. *)
Lemma handleSelection_commit fuel d v st st' :
  v ≠ ADD_NEW →
  handleSelection config fuel d v st = Some st' →
  ∃ ds, findDependentDropdowns config fuel d = Some ds ∧
        selections st' = clearDependents ds (<[d := v]> (selections st)).
Proof.
  intros Hv. unfold handleSelection.
  destruct (String.eqb_spec v ADD_NEW) as [|_]; [done|].
  destruct (findDependentDropdowns config fuel d) as [ds|]; [|done].
  simpl. intros [= <-]. by exists ds.
Qed.

Lemma handleSelection_returns rank fuel d v st :
  forallb (respectsRank rank) config = true →
  rank d < fuel → is_Some (handleSelection config fuel d v st).
Proof.
  intros Hr Hlt. unfold handleSelection.
  destruct (String.eqb v ADD_NEW); [done|].
  by destruct (findDependentDropdowns_terminates rank fuel d Hr Hlt) as [ds ->].
Qed.

Lemma handleSelection_selected fuel d v st st' :
  v ≠ ADD_NEW →
  handleSelection config fuel d v st = Some st' →
  selections st' !! d = Some v.
Proof.
  intros Hv H. destruct (handleSelection_commit _ _ _ _ _ Hv H) as (ds & Hds & ->).
  rewrite clearDependents_lookup, decide_False; [apply lookup_insert_eq|].
  intros Hin. apply (findDependentDropdowns_descendant _ _ _ Hds) in Hin.
  by rewrite (findDependentDropdowns_cycle fuel d Hin) in Hds.
Qed.

End Descendants.


(** ** The default selections *)

Section Defaults.

Variable config : list DropdownConfig.
Variable data : DataStore.

Lemma defaultStep_other (m : gmap string string) d k :
  cfg_id d ≠ k → defaultStep data m d !! k = m !! k.
Proof.
  intros Hne. unfold defaultStep.
  destruct (negb (truthy (cfg_dependsOn d))); [|done].
  destruct (default _ _); [done|]. by rewrite lookup_insert_ne.
Qed.

Lemma defaultStep_absorbs (m m' : gmap string string) d :
  m' !! cfg_id d = m !! cfg_id d →
  defaultStep data m' d !! cfg_id d = defaultStep data m d !! cfg_id d.
Proof.
  intros Hm. unfold defaultStep.
  destruct (negb (truthy (cfg_dependsOn d))); [|done].
  destruct (default _ _); [done|]. by rewrite !lookup_insert_eq.
Qed.

Lemma foldl_defaultStep_other l (m : gmap string string) k :
  k ∉ cfg_id <$> l → foldl (defaultStep data) m l !! k = m !! k.
Proof.
  revert m. induction l as [|d l IH]; intros m Hk; [done|].
  rewrite fmap_cons in Hk. apply not_elem_of_cons in Hk as [Hne Hk].
  cbn [foldl]. rewrite IH by done. by apply defaultStep_other.
Qed.

(** With unique ids, the entry of a dropdown is the one its own step of
    the loop wrote. *)
Lemma foldl_defaultStep_own l (m : gmap string string) d :
  NoDup (cfg_id <$> l) → d ∈ l →
  foldl (defaultStep data) m l !! cfg_id d = defaultStep data m d !! cfg_id d.
Proof.
  revert m. induction l as [|d0 l IH]; intros m Hnd Hd.
  - by apply elem_of_nil in Hd.
  - rewrite fmap_cons in Hnd. apply NoDup_cons in Hnd as [Hd0 Hnd].
    cbn [foldl]. apply elem_of_cons in Hd as [->|Hd].
    + by rewrite foldl_defaultStep_other.
    + rewrite IH by done. apply defaultStep_absorbs, defaultStep_other.
      intros Heq. apply Hd0. rewrite Heq. by apply list_elem_of_fmap_2.
Qed.

Lemma initializeDefaults_selections (st : State) :
  selections (initializeDefaults config st) = selections st ∨
  (mounted st = true ∧ initialized st = false ∧ selections st = ∅ ∧
   selections (initializeDefaults config st) = initialSelectionsOf config (dropdownData st)).
Proof.
  unfold initializeDefaults.
  destruct (mounted st), (initialized st); simpl; try by left.
  case_bool_decide as Hsel; simpl; [|by left].
  case_bool_decide as Hinit; simpl; [by left|]. by right.
Qed.

Lemma initializeDefaults_idempotent (st : State) :
  initializeDefaults config (initializeDefaults config st)
  = initializeDefaults config st.
Proof.
  destruct st as [sel store m i ? ? ? ? ? ? ? ? ?].
  unfold initializeDefaults at 2 3. cbn [mounted initialized selections dropdownData].
  destruct m, i; try done; cbn [negb orb].
  - case_bool_decide as Hsel; cbn [negb]; [|done].
    case_bool_decide as Hinit; cbn [negb]; [|done].
    unfold initializeDefaults. cbn. rewrite bool_decide_true by done.
    cbn. by rewrite bool_decide_true by done.
Qed.

End Defaults.

(** ** Blank texts *)

Lemma trimStart_head s c r : Str.trimStart s = String c r → Str.isWhiteSpace c = false.
Proof.
  induction s as [|a s IH]; simpl; [done|].
  destruct (Str.isWhiteSpace a) eqn:Ha; [done|]. by intros [= <- _].
Qed.

Lemma trimStart_empty s : Str.trimStart s = "" ↔ allWhiteSpace s = true.
Proof.
  induction s as [|a s IH]; simpl; [done|].
  destruct (Str.isWhiteSpace a); simpl; [done|]. split; discriminate.
Qed.

Lemma trimEnd_empty s : Str.trimEnd s = "" ↔ allWhiteSpace s = true.
Proof.
  induction s as [|a s IH]; simpl; [done|].
  destruct (Str.trimEnd s) eqn:Hs.
  - destruct (Str.isWhiteSpace a); simpl; [by rewrite <- IH|].
    split; discriminate.
  - split; [discriminate|]. intros [_ H]%andb_true_iff.
    by apply IH in H.
Qed.

(** [trim] returns the empty string exactly on the texts made of white
    space only. *)
Lemma trim_empty s : Str.trim s = "" ↔ allWhiteSpace s = true.
Proof.
  unfold Str.trim. rewrite trimEnd_empty. split.
  - intros H. apply trimStart_empty.
    destruct (Str.trimStart s) as [|c r] eqn:Hs; [done|].
    apply trimStart_head in Hs. simpl in H. by rewrite Hs in H.
  - intros H. apply trimStart_empty in H. by rewrite H.
Qed.

Lemma splitLines_blank s :
  (∀ line, line ∈ Str.splitLines s → allWhiteSpace line = true) →
  allWhiteSpace s = true.
Proof.
  induction s as [|a s IH]; simpl; [done|].
  destruct (Ascii.eqb_spec a "010"%char) as [->|Hne].
  - intros H. apply IH. intros line Hline. apply H. by right.
  - destruct (Str.splitLines s) as [|l ls] eqn:Hs.
    + intros H. specialize (H (String a "")). simpl in H.
      rewrite andb_true_r in H. rewrite H by (by left). simpl.
      apply IH. intros line Hline. by apply elem_of_nil in Hline.
    + intros H. pose proof (H (String a l)) as Hal. simpl in Hal.
      apply andb_true_iff in Hal as [-> Hl]; [|by left]. simpl.
      apply IH. intros line [->|Hline]%elem_of_cons; [done|].
      apply H. by right.
Qed.

(** A text with no non-blank line trims to the empty string, so the
    guard at line 336 has already returned when line 347 is reached. *)
Lemma importedLines_nil text : importedLines text = [] → Str.trim text = "".
Proof.
  intros H. apply trim_empty, splitLines_blank. intros line Hline.
  apply trim_empty. destruct (decide (Str.trim line = "")) as [|Hne]; [done|].
  exfalso. eapply (filter_nil_not_elem_of _ _ (Str.trim line)); [exact H|exact Hne|].
  by apply list_elem_of_fmap_2.
Qed.

(** ** The breadcrumb *)

Section Path.

Variable config : list DropdownConfig.

Lemma findConfig_Some i d : findConfig config i = Some d → d ∈ config ∧ cfg_id d = i.
Proof.
  unfold findConfig. destruct (list_find _ config) as [[n d']|] eqn:H; [|done].
  intros [= <-]. apply list_find_Some in H as (Hn & Hid & _).
  split; [by eapply list_elem_of_lookup_2|done].
Qed.

Lemma rank_le_maxRank rank d : d ∈ config → (rank (cfg_id d) ≤ maxRank rank config)%nat.
Proof.
  unfold maxRank. induction config as [|d0 l IH]; intros Hd.
  - by apply elem_of_nil in Hd.
  - apply elem_of_cons in Hd as [->|Hd]; simpl; [lia|]. specialize (IH Hd). lia.
Qed.

(** On a ranked configuration the walk towards the root ends: the rank
    grows at every step and is bounded by the largest rank of the
    configuration. *)
Lemma walkUp_terminates rank fuel data sel p labels :
  forallb (respectsRank rank) config = true →
  (S (maxRank rank config) - rank p + 1 < fuel)%nat →
  is_Some (walkUp config fuel data sel p labels).
Proof.
  intros Hr. revert p labels. induction fuel as [|fuel IH]; intros p labels Hlt; [lia|].
  cbn [walkUp]. destruct (negb (truthy (Some p))); [done|].
  destruct (findConfig config p) as [d|] eqn:Hd; [|done].
  destruct (negb (truthy (sel !! p))); [done|].
  apply findConfig_Some in Hd as [Hd <-].
  pose proof (rank_le_maxRank rank d Hd) as Hle.
  destruct (cfg_dependsOn d) as [p'|] eqn:Hp; simpl.
  - apply IH. pose proof (respectsRank_spec config rank Hr d p' Hd Hp). lia.
  - destruct fuel as [|fuel']; [lia|]. done.
Qed.

Lemma pathDisplayOf_terminates rank fuel data sel d activeId :
  forallb (respectsRank rank) config = true →
  (maxRank rank config + 2 < fuel)%nat →
  is_Some (pathDisplayOf config fuel data sel d activeId).
Proof.
  intros Hr Hlt. unfold pathDisplayOf, getSelectionPath.
  destruct (truthy (cfg_dependsOn d)); [|done].
  destruct (findConfig config activeId) as [d'|]; [|done].
  destruct (negb (truthy (cfg_dependsOn d'))); [done|].
  destruct (walkUp_terminates rank fuel data sel (default "" (cfg_dependsOn d')) []
              Hr) as [labels ->]; [lia|done].
Qed.

End Path.

(** ** Bulk import *)

Section BulkImport.

Variable config : list DropdownConfig.

Lemma importLine_lists sel d activeId existing acc line :
  duplicateOptions (importLine config sel d activeId existing acc line)
    = duplicateOptions acc
        ++ (if isDuplicateLine existing line then [Str.trim line] else []) ∧
  addedOptions (importLine config sel d activeId existing acc line)
    = addedOptions acc
        ++ (if isDuplicateLine existing line || negb (hasContext sel d)
            then [] else [Str.trim line]).
Proof.
  unfold importLine, isDuplicateLine, hasContext, isDependent.
  destruct (existsInImport _ _ _); simpl; [by rewrite app_nil_r|].
  destruct (truthy (cfg_dependsOn d)); simpl; [|by rewrite app_nil_r].
  destruct (truthy (sel !! _)); simpl; by rewrite ?app_nil_r.
Qed.

(** The two lists after the loop: the verdict on a line depends on
    [existing] and on the line alone. *)
Lemma foldl_importLine sel d activeId existing acc lines :
  duplicateOptions (foldl (importLine config sel d activeId existing) acc lines)
    = duplicateOptions acc
        ++ (Str.trim <$> filter (λ line, isDuplicateLine existing line = true) lines) ∧
  addedOptions (foldl (importLine config sel d activeId existing) acc lines)
    = addedOptions acc
        ++ (if hasContext sel d
            then Str.trim <$> filter (λ line, isDuplicateLine existing line = false) lines
            else []).
Proof.
  revert acc. induction lines as [|line lines IH]; intros acc; cbn [foldl].
  - rewrite filter_nil. destruct (hasContext sel d); by rewrite !app_nil_r.
  - destruct (IH (importLine config sel d activeId existing acc line)) as [-> ->].
    destruct (importLine_lists sel d activeId existing acc line) as [-> ->].
    rewrite !filter_cons.
    destruct (isDuplicateLine existing line) eqn:Hdup; simpl.
    + by rewrite app_nil_r, <- app_assoc.
    + rewrite app_nil_r. destruct (hasContext sel d); simpl.
      * by rewrite <- app_assoc.
      * by rewrite !app_nil_r.
Qed.

(** No path of [handleImportOptions] writes to the snapshot. *)
Lemma handleImportOptions_selections fuel st st' :
  handleImportOptions config fuel st = Some st' → selections st' = selections st.
Proof.
  unfold handleImportOptions.
  destruct (_ || _); [by intros [= <-]|].
  destruct (findConfig config _) as [d|]; [|by intros [= <-]].
  destruct (importedLines _) as [|line lines]; [by intros [= <-]|].
  destruct (addedOptions _); [by intros [= <-]|].
  destruct (pathDisplayOf _ _ _ _ _ _); [|done]. by intros [= <-].
Qed.

Lemma handleImportOptions_refs fuel st st' :
  handleImportOptions config fuel st = Some st' →
  mounted st' = mounted st ∧ initialized st' = initialized st.
Proof.
  unfold handleImportOptions.
  destruct (_ || _); [by intros [= <-]|].
  destruct (findConfig config _) as [d|]; [|by intros [= <-]].
  destruct (importedLines _) as [|line lines]; [by intros [= <-]|].
  destruct (addedOptions _); [by intros [= <-]|].
  destruct (pathDisplayOf _ _ _ _ _ _); [|done]. by intros [= <-].
Qed.

Lemma handleImportOptions_returns rank fuel st :
  forallb (respectsRank rank) config = true →
  (maxRank rank config + 2 < fuel)%nat →
  is_Some (handleImportOptions config fuel st).
Proof.
  intros Hr Hlt. unfold handleImportOptions.
  destruct (_ || _); [done|].
  destruct (findConfig config _) as [d|]; [|done].
  destruct (importedLines _) as [|line lines]; [done|].
  destruct (addedOptions _); [done|].
  by destruct (pathDisplayOf_terminates config rank fuel (dropdownData st)
                 (selections st) d (default "" (activeDropdownId st)) Hr Hlt)
    as [path ->].
Qed.

(** A text that trims to the empty string stops the handler at its first
    line. *)
Lemma handleImportOptions_blank fuel st :
  Str.trim (importText st) = "" → handleImportOptions config fuel st = Some st.
Proof.
  intros H. unfold handleImportOptions. rewrite H. simpl.
  by rewrite orb_true_r.
Qed.

(** ** Child contexts *)

Lemma relations_pushChildRelations dropdownId value data :
  store_relations (pushChildRelations config dropdownId value data)
  = store_relations data
      ++ ((λ child, mkRelation dropdownId value (cfg_id child) [])
            <$> childDropdownsOf config dropdownId).
Proof. done. Qed.

End BulkImport.

(** ** The sample configurations *)

Lemma chain_acyclic : acyclic Sample.chain.
Proof. exists Sample.chainRank. reflexivity. Qed.

Lemma chain_ids_unique : NoDup (cfg_id <$> Sample.chain).
Proof. apply (bool_decide_unpack _). by vm_compute. Qed.

Lemma chain_has_b : Sample.dropdownB ∈ Sample.chain.
Proof. by right; left. Qed.

Lemma chain_has_c : Sample.dropdownC ∈ Sample.chain.
Proof. by right; right; left. Qed.

Lemma chain_a_b : descendant Sample.chain "a" "b".
Proof. exact (descendant_child Sample.chain "a" Sample.dropdownB chain_has_b eq_refl). Qed.

Lemma chain_b_c : descendant Sample.chain "b" "c".
Proof. exact (descendant_child Sample.chain "b" Sample.dropdownC chain_has_c eq_refl). Qed.

Lemma loop_cycle : descendant Sample.loop "a" "a".
Proof.
  apply (descendant_child Sample.loop "a"
           (mkConfig "a" "A" [] (Some "a") (Some true))); [by left|done].
Qed.

(** * Selection *)

(** C1.  Cascade invariant.  Let [v] be a value other than the sentinel.
    Whenever the selection of [v] in dropdown [p] returns, [p] holds [v]
    in the snapshot it returns and every descendant of [p] (child,
    grandchild, ...) holds the empty string; and on a configuration
    without a cycle the selection does return.  Nothing is assumed about
    the state in which the selection is made: it may be the result of any
    sequence of earlier selections, and the store may hold any options
    for the descendants. *)
Theorem cascade_invariant (config : list DropdownConfig) (st : State)
    (p v : string) :
  v ≠ ADD_NEW →
  (∀ fuel st', handleSelection config fuel p v st = Some st' →
     selections st' !! p = Some v ∧
     ∀ x, descendant config p x → selections st' !! x = Some "") ∧
  (acyclic config → ∃ fuel, is_Some (handleSelection config fuel p v st)).
Proof.
  intros Hv. split.
  - intros fuel st' H. split; [by eapply handleSelection_selected|].
    intros x Hx.
    destruct (handleSelection_commit _ _ _ _ _ _ Hv H) as (ds & Hds & ->).
    rewrite clearDependents_lookup, decide_True; [done|].
    by apply (findDependentDropdowns_descendant _ _ _ _ Hds).
  - intros [rank Hrank]. exists (S (rank p)).
    apply (handleSelection_returns config rank); [done|lia].
Qed.

Lemma cascade_invariant_witness :
  "y" ≠ ADD_NEW ∧
  (∃ st', handleSelection Sample.chain 3 "a" "y" Sample.started = Some st' ∧
          selections st' !! "a" = Some "y" ∧
          selections st' !! "b" = Some "" ∧
          selections st' !! "c" = Some "").
Proof.
  split; [discriminate|].
  destruct (cascade_invariant Sample.chain Sample.started "a" "y") as [Hinv _];
    [discriminate|].
  destruct (handleSelection Sample.chain 3 "a" "y" Sample.started)
    as [st'|] eqn:H; [|by vm_compute in H].
  exists st'. split; [reflexivity|].
  destruct (Hinv 3 st' H) as [Ha Hdesc].
  split; [exact Ha|]. split; apply Hdesc.
  - exact chain_a_b.
  - exact (descendant_below Sample.chain "a" Sample.dropdownB "c"
             chain_has_b eq_refl chain_b_c).
Defined.

(** C10.  [handleSelection] never looks at the options of the dropdown.
    The sentinel opens the authoring menu and leaves the snapshot as it
    was.  Every other value [v] is written to the snapshot entry of [d]
    whenever the selection returns, whether or not [getDropdownOptions]
    offers [v] (the statement puts no condition on [v] besides
    [v ≠ ADD_NEW]); on a configuration without a cycle the selection does
    return. *)
Theorem select_without_membership_check (config : list DropdownConfig)
    (st : State) (d v : string) :
  (∀ fuel, ∃ st', handleSelection config fuel d ADD_NEW st = Some st' ∧
     selections st' = selections st ∧
     activeDropdownId st' = Some d ∧ initialMenuOpen st' = true) ∧
  (v ≠ ADD_NEW →
     (∀ fuel st', handleSelection config fuel d v st = Some st' →
        selections st' !! d = Some v) ∧
     (acyclic config → ∃ fuel, is_Some (handleSelection config fuel d v st))).
Proof.
  split.
  - intros fuel. eexists. by split; [reflexivity|].
  - intros Hv. split.
    + intros fuel st' H. by eapply handleSelection_selected.
    + intros [rank Hrank]. exists (S (rank d)).
      apply (handleSelection_returns config rank); [done|lia].
Qed.

Lemma select_without_membership_check_witness :
  "zzz" ≠ ADD_NEW ∧
  ("zzz" ∉ opt_value <$> getDropdownOptions (dropdownData Sample.started)
             (selections Sample.started) Sample.dropdownA) ∧
  (∃ st', handleSelection Sample.chain 3 "a" "zzz" Sample.started = Some st' ∧
          selections st' !! "a" = Some "zzz").
Proof.
  split; [discriminate|]. split.
  - vm_compute. intros H. apply list_elem_of_In in H. simpl in H.
    by destruct H as [|[|[]]].
  - destruct (select_without_membership_check Sample.chain Sample.started "a" "zzz")
      as [_ Hcommit].
    destruct Hcommit as [Hcommit _]; [discriminate|].
    destruct (handleSelection Sample.chain 3 "a" "zzz" Sample.started)
      as [st'|] eqn:H; [|by vm_compute in H].
    exists st'. split; [reflexivity|]. exact (Hcommit 3 st' H).
Defined.

(** * Descendants and cycles *)

(** C6, as the code has it.  The traversal keeps no record of the ids it
    has visited.  On a configuration without a cycle it returns, and
    returns exactly the transitive descendants; started from an id that is
    its own descendant, or that has such an id among its descendants, it
    never returns. *)
Theorem descendants_computed_without_cycle_guard (config : list DropdownConfig) :
  (acyclic config →
   ∀ p, ∃ fuel r, findDependentDropdowns config fuel p = Some r ∧
                  ∀ x, x ∈ r ↔ descendant config p x) ∧
  (∀ p x, x = p ∨ descendant config p x → descendant config x x →
          ∀ fuel, findDependentDropdowns config fuel p = None).
Proof.
  split.
  - intros [rank Hrank] p.
    destruct (findDependentDropdowns_terminates config rank (S (rank p)) p Hrank)
      as [r Hr]; [lia|].
    exists (S (rank p)), r. split; [done|].
    by apply findDependentDropdowns_descendant with (S (rank p)).
  - intros p x [->|Hx] Hcycle fuel; [by apply findDependentDropdowns_cycle|].
    destruct fuel as [|fuel]; [done|].
    destruct (findDependentDropdowns config (S fuel) p) as [r|] eqn:H; [|done].
    destruct (findDependentDropdowns_calls _ _ _ _ _ H Hx) as [r' Hr'].
    by rewrite (findDependentDropdowns_cycle config fuel x Hcycle) in Hr'.
Qed.

Lemma descendants_computed_without_cycle_guard_witness :
  acyclic Sample.chain ∧
  (∃ fuel r, findDependentDropdowns Sample.chain fuel "a" = Some r ∧
             ∀ x, x ∈ r ↔ descendant Sample.chain "a" x) ∧
  descendant Sample.loop "a" "a" ∧
  (∀ fuel, findDependentDropdowns Sample.loop fuel "a" = None).
Proof.
  split; [exact chain_acyclic|]. split; [|split; [exact loop_cycle|]].
  - exact (proj1 (descendants_computed_without_cycle_guard Sample.chain)
             chain_acyclic "a").
  - exact (proj2 (descendants_computed_without_cycle_guard Sample.loop)
             "a" "a" (or_introl eq_refl) loop_cycle).
Defined.

(** C6 as claimed fails: a dropdown that depends on itself is accepted at
    construction (the component mounts with its usual initial state); the
    computation of its descendants never returns, whatever the fuel, and
    neither does a selection in it. *)
Lemma cyclic_configuration_is_not_rejected :
  mount Sample.loop None None = Sample.fresh (mkStore {[ "a" := [] ]} []) ∧
  ¬ (∃ fuel, is_Some (findDependentDropdowns Sample.loop fuel "a")) ∧
  ¬ (∃ fuel, is_Some (handleSelection Sample.loop fuel "a" "x"
                        (mount Sample.loop None None))).
Proof.
  split; [reflexivity|]. split.
  - intros [fuel [r Hr]].
    by rewrite (findDependentDropdowns_cycle Sample.loop fuel "a" loop_cycle) in Hr.
  - intros [fuel [st' H]].
    apply handleSelection_commit in H as (ds & Hds & _); [|discriminate].
    by rewrite (findDependentDropdowns_cycle Sample.loop fuel "a" loop_cycle) in Hds.
Qed.

(** * Resolving the options of a dropdown *)

(** C5.  Parent gating.  For a dependent dropdown [d] (its [dependsOn] is
    the id [p] of its parent) and a snapshot in which the entry of [p] is
    absent or the empty string, [getDropdownOptions] returns the empty
    list, whatever the store holds. *)
Theorem parent_gating (data : DataStore) (sel : gmap string string)
    (d : DropdownConfig) (p : string) :
  isDependent d = true → cfg_dependsOn d = Some p →
  sel !! p = None ∨ sel !! p = Some "" →
  getDropdownOptions data sel d = [].
Proof.
  unfold isDependent, getDropdownOptions. intros -> -> Hsel. simpl.
  by destruct Hsel as [-> | ->].
Qed.

Lemma parent_gating_witness :
  getDropdownOptions
    (mkStore ∅ [mkRelation "a" "x" "b" [mkOption "Foo" "Foo"];
                mkRelation "a" "" "b" [mkOption "Bar" "Bar"]])
    {[ "a" := "" ]} (mkConfig "b" "B" [mkOption "s" "S"] (Some "a") None) = [] ∧
  getDropdownOptions
    (mkStore ∅ [mkRelation "a" "x" "b" [mkOption "Foo" "Foo"];
                mkRelation "a" "" "b" [mkOption "Bar" "Bar"]])
    ∅ (mkConfig "b" "B" [mkOption "s" "S"] (Some "a") None) = [].
Proof.
  split.
  - apply (parent_gating _ _ _ "a"); [reflexivity|reflexivity|by right].
  - apply (parent_gating _ _ _ "a"); [reflexivity|reflexivity|by left].
Defined.

(** * Default selections *)

(** C7.  Default initialization, for a configuration with unique ids and
    a mounted component.
    - Once any selection exists the effect leaves the snapshot as it is;
      once it has installed the defaults it does nothing at all; and
      running it twice is the same as running it once.
    - When it runs for the first time with nothing selected, every
      root-level dropdown whose resolved option list is not empty gets the
      value of the first option of that list.
    - The entry of a dependent dropdown is never touched. *)
Theorem default_initialization (config : list DropdownConfig) (st : State) :
  NoDup (cfg_id <$> config) → mounted st = true →
  (selections st ≠ ∅ →
     selections (initializeDefaults config st) = selections st) ∧
  (initialized st = true → initializeDefaults config st = st) ∧
  initializeDefaults config (initializeDefaults config st)
    = initializeDefaults config st ∧
  (initialized st = false → selections st = ∅ →
     ∀ d first rest, d ∈ config → isDependent d = false →
       getDropdownOptions (dropdownData st) (selections st) d = first :: rest →
       selections (initializeDefaults config st) !! cfg_id d
         = Some (opt_value first)) ∧
  (∀ d, d ∈ config → isDependent d = true →
     selections (initializeDefaults config st) !! cfg_id d
       = selections st !! cfg_id d).
Proof.
  intros Hnd Hm. split_and!.
  - intros Hsel.
    by destruct (initializeDefaults_selections config st) as [?|(_ & _ & ? & _)].
  - intros Hi. unfold initializeDefaults. by rewrite Hm, Hi.
  - by apply initializeDefaults_idempotent.
  - intros Hi Hsel d first rest Hd Hroot Hopts.
    unfold initializeDefaults. rewrite Hm, Hi. simpl.
    rewrite bool_decide_true by done. simpl.
    assert (initialSelectionsOf config (dropdownData st) !! cfg_id d
            = Some (opt_value first)) as Hown.
    { unfold initialSelectionsOf. rewrite foldl_defaultStep_own by done.
      unfold isDependent in Hroot. unfold defaultStep, getDropdownOptions in *.
      rewrite Hroot in *. simpl in *. rewrite Hopts. apply lookup_insert_eq. }
    case_bool_decide as Hinit; simpl; [|done].
    by rewrite Hinit, lookup_empty in Hown.
  - intros d Hd Hdep.
    destruct (initializeDefaults_selections config st)
      as [->|(_ & _ & -> & ->)]; [done|].
    unfold initialSelectionsOf. rewrite foldl_defaultStep_own by done.
    unfold isDependent in Hdep. unfold defaultStep. by rewrite Hdep.
Qed.

Lemma default_initialization_witness :
  NoDup (cfg_id <$> Sample.chain) ∧ mounted (mount Sample.chain None None) = true ∧
  selections (initializeDefaults Sample.chain (mount Sample.chain None None)) !! "a"
    = Some "x" ∧
  selections (initializeDefaults Sample.chain (mount Sample.chain None None)) !! "b"
    = None.
Proof.
  split; [exact chain_ids_unique|]. split; [reflexivity|].
  destruct (default_initialization Sample.chain (mount Sample.chain None None)
              chain_ids_unique eq_refl) as (_ & _ & _ & Hroot & Hdep).
  split.
  - apply (Hroot eq_refl eq_refl
             (mkConfig "a" "A" [mkOption "x" "X"; mkOption "y" "Y"] None (Some true))
             (mkOption "x" "X") [mkOption "y" "Y"]);
      [by left|reflexivity|reflexivity].
  - apply (Hdep (mkConfig "b" "B" [] (Some "a") (Some true)));
      [by right; left|reflexivity].
Defined.

(** * Bulk import *)

(** Every line of a batch is checked against the options the dropdown had
    when the handler was called, and against nothing else: the skipped
    labels are the lines that duplicate one of those options, and (when
    there is a context to write to) the added labels are all the other
    lines, in order. *)
Lemma importLines_verdicts (config : list DropdownConfig)
    (data : DataStore) (sel : gmap string string) (d : DropdownConfig)
    (activeId : string) (lines : list string) :
  duplicateOptions (importLines config data sel d activeId lines)
    = Str.trim <$> filter (λ line,
        isDuplicateLine (getDropdownOptions data sel d) line = true) lines ∧
  addedOptions (importLines config data sel d activeId lines)
    = if hasContext sel d
      then Str.trim <$> filter (λ line,
             isDuplicateLine (getDropdownOptions data sel d) line = false) lines
      else [].
Proof.
  unfold importLines.
  destruct (foldl_importLine config sel d activeId (getDropdownOptions data sel d)
              (mkProgress data [] []) lines) as [-> ->].
  done.
Qed.

(** C2, what the code does at the failing input.  [Red], [red], [Blue] are
    imported into the empty context of [b] under [a = x]: nothing is
    stored for that context, all three lines are added and none is
    reported as a duplicate, and the context ends with the options [Red]
    and [red].  Added one at a time, [red] is refused after [Red]. *)
Theorem in_batch_duplicate_is_accepted :
  getDropdownOptions (dropdownData Sample.started) (selections Sample.started)
    Sample.dropdownB = [] ∧
  importedLines Sample.redRedBlue = ["Red"; "red"; "Blue"] ∧
  addedOptions (importLines Sample.chain (dropdownData Sample.started)
                  (selections Sample.started) Sample.dropdownB "b"
                  ["Red"; "red"; "Blue"])
    = ["Red"; "red"; "Blue"] ∧
  duplicateOptions (importLines Sample.chain (dropdownData Sample.started)
                      (selections Sample.started) Sample.dropdownB "b"
                      ["Red"; "red"; "Blue"])
    = [] ∧
  ((λ st', toast_description <$> toasts st')
     <$> handleImportOptions Sample.chain 5
           (Sample.importing "b" Sample.redRedBlue Sample.started))
    = Some [ "Added 3 new " +:+ QUOTE +:+ "B" +:+ QUOTE +:+ " options."
             +:+ NEWLINE +:+ "Path: X" ] ∧
  ((λ st', store_relations (dropdownData st'))
     <$> handleImportOptions Sample.chain 5
           (Sample.importing "b" Sample.redRedBlue Sample.started))
    = Some [ mkRelation "a" "x" "b"
               [mkOption "Red" "Red"; mkOption "red" "red"; mkOption "Blue" "Blue"];
             mkRelation "b" "Red" "c" [];
             mkRelation "b" "red" "c" [];
             mkRelation "b" "Blue" "c" [] ] ∧
  ((λ st', toast_title <$> toasts st') <$> Sample.redThenRed)
    = Some ["Option Added"; "Option already exists"].
Proof. repeat split; vm_compute; reflexivity. Qed.

(** C8, as the code has it.  The handler of a bulk import never writes
    the selection snapshot: whenever [handleImportOptions] returns, the
    snapshot is the one it started from, whatever the text and whether or
    not options were added.  For the component, where the render that
    follows the handler may run the defaults effect again, the snapshot is
    the one the import started from, except in one case: the component is
    mounted, no defaults are installed, nothing is selected and the
    import has changed the store; the snapshot is then the defaults of the
    new store.  So the snapshot is kept in every state that holds a
    selection or in which the defaults are installed (or that is not
    mounted).  On a configuration without a cycle the import returns. *)
Theorem bulk_import_keeps_selections (config : list DropdownConfig) (st : State) :
  (∀ fuel st', handleImportOptions config fuel st = Some st' →
     selections st' = selections st) ∧
  (∀ fuel st', bulkImport config fuel st = Some st' →
     selections st' = selections st
     ∨ (mounted st = true ∧ initialized st = false ∧ selections st = ∅ ∧
        dropdownData st' ≠ dropdownData st ∧
        selections st' = initialSelectionsOf config (dropdownData st'))) ∧
  (selections st ≠ ∅ ∨ initialized st = true ∨ mounted st = false →
   ∀ fuel st', bulkImport config fuel st = Some st' →
     selections st' = selections st) ∧
  (acyclic config → ∃ fuel, is_Some (bulkImport config fuel st)).
Proof.
  assert (∀ fuel st', bulkImport config fuel st = Some st' →
     selections st' = selections st
     ∨ (mounted st = true ∧ initialized st = false ∧ selections st = ∅ ∧
        dropdownData st' ≠ dropdownData st ∧
        selections st' = initialSelectionsOf config (dropdownData st')))
    as Hcases.
  { intros fuel st'. unfold bulkImport.
    destruct (handleImportOptions config fuel st) as [st1|] eqn:H; [|done].
    cbn. intros [= <-].
    pose proof (handleImportOptions_selections config _ _ _ H) as Hsel.
    destruct (handleImportOptions_refs config _ _ _ H) as [Hm Hi].
    unfold rerender. case_bool_decide as Hdeps; [by left|].
    assert (dropdownData (initializeDefaults config st1) = dropdownData st1)
      as Hstore by (unfold initializeDefaults; by repeat case_match).
    destruct (initializeDefaults_selections config st1)
      as [->|(Hm1 & Hi1 & Hs1 & Hdefaults)]; [by left|].
    right. rewrite Hstore. split_and!; [congruence..| |done].
    intros Heq. by apply Hdeps. }
  split_and!.
  - intros fuel st'. apply handleImportOptions_selections.
  - exact Hcases.
  - intros Hst fuel st' [Hkept|(Hm & Hi & Hs & _)]%Hcases; [done|].
    destruct Hst as [Hne|[Hinit|Hmount]]; congruence.
  - intros [rank Hrank]. exists (maxRank rank config + 3). unfold bulkImport.
    destruct (handleImportOptions_returns config rank (maxRank rank config + 3) st)
      as [st' ->]; [done|lia|]. by eexists.
Qed.

Lemma bulk_import_keeps_selections_witness :
  ∃ st', bulkImport Sample.chain 5
           (Sample.importing "b" Sample.redRedBlue Sample.started) = Some st' ∧
         dropdownData st' ≠ dropdownData Sample.started ∧
         selections st' = {[ "a" := "x" ]}.
Proof.
  destruct (bulk_import_keeps_selections Sample.chain
              (Sample.importing "b" Sample.redRedBlue Sample.started))
    as (_ & _ & Hframe & _).
  destruct (bulkImport Sample.chain 5
              (Sample.importing "b" Sample.redRedBlue Sample.started))
    as [st'|] eqn:H; [|by vm_compute in H].
  exists st'. split; [reflexivity|]. split.
  - vm_compute in H. injection H as <-. discriminate.
  - apply (Hframe (or_intror (or_introl eq_refl)) 5 st' H).
Defined.

(** C8, the counterexample.  In a component that is mounted with nothing
    selected and no defaults installed (its only root-level dropdown has
    no option yet), a bulk import into that dropdown changes the store;
    the defaults effect then runs again and selects the first imported
    option, so the selection of the dropdown is not what it was. *)
Lemma bulk_import_installs_a_default :
  ∃ st', bulkImport Demo.bare 5
           (Sample.importing "r" Sample.redRedBlue (mount Demo.bare None None))
         = Some st' ∧
         selections (Sample.importing "r" Sample.redRedBlue
                       (mount Demo.bare None None)) !! "r" = None ∧
         selections st' !! "r" = Some "Red".
Proof.
  destruct (bulkImport Demo.bare 5
              (Sample.importing "r" Sample.redRedBlue (mount Demo.bare None None)))
    as [st'|] eqn:H; [|by vm_compute in H].
  exists st'. split; [reflexivity|]. split; [reflexivity|].
  vm_compute in H. injection H as <-. reflexivity.
Qed.

(** C9, as the code has it.  A text without a non-blank line cannot be
    imported and nothing is reported for it: the [Import] button of the
    dialog is disabled, confirming does nothing, and the handler itself,
    were it called, returns the state it was given at its first line, so
    the store and the list of toasts are untouched.  Lines of white space
    do not count as content. *)
Theorem empty_import_is_silent (config : list DropdownConfig) (fuel : nat)
    (st : State) :
  importedLines (importText st) = [] →
  importOkDisabled st = true ∧
  confirmImport config fuel st = Some st ∧
  handleImportOptions config fuel st = Some st.
Proof.
  intros H%importedLines_nil. unfold confirmImport, importOkDisabled.
  rewrite H. split_and!; [done|done|]. by apply handleImportOptions_blank.
Qed.

Lemma empty_import_is_silent_witness :
  importedLines Sample.blankText = [] ∧
  importOkDisabled (Sample.importing "b" Sample.blankText Sample.started) = true ∧
  handleImportOptions Sample.chain 5 (Sample.importing "b" Sample.blankText Sample.started)
    = Some (Sample.importing "b" Sample.blankText Sample.started) ∧
  toasts (Sample.importing "b" Sample.blankText Sample.started) = [] ∧
  handleImportOptions Sample.chain 5 (Sample.importing "b" "" Sample.started)
    = Some (Sample.importing "b" "" Sample.started).
Proof.
  destruct (empty_import_is_silent Sample.chain 5
              (Sample.importing "b" Sample.blankText Sample.started))
    as (Hdisabled & _ & Hblank); [reflexivity|].
  destruct (empty_import_is_silent Sample.chain 5
              (Sample.importing "b" "" Sample.started))
    as (_ & _ & Hempty); [reflexivity|].
  split; [reflexivity|]. split; [exact Hdisabled|]. split; [exact Hblank|].
  split; [reflexivity|exact Hempty].
Defined.

(** C9, the counterexample.  For the text of two lines of blanks, with a
    dropdown active and its parent selected, the import ends in the state
    it started from: no failure is reported (no toast is added), whether
    the dialog is confirmed or the handler is called directly. *)
Lemma blank_import_is_not_reported :
  importedLines Sample.blankText = [] ∧
  ∃ st', confirmImport Sample.chain 5
           (Sample.importing "b" Sample.blankText Sample.started) = Some st' ∧
         handleImportOptions Sample.chain 5
           (Sample.importing "b" Sample.blankText Sample.started) = Some st' ∧
         toasts st'
         = toasts (Sample.importing "b" Sample.blankText Sample.started) ∧
         toasts st' = [].
Proof.
  split; [reflexivity|].
  exists (Sample.importing "b" Sample.blankText Sample.started).
  by vm_compute.
Qed.

(** * Authoring *)

(** C3, as the code has it.  After an option is inserted, one empty
    relation is pushed for every dropdown that depends on the dropdown,
    whether or not the store already has a relation with that triple: the
    number of entries with the triple grows with every call.  The entries
    already stored stay where they are, and a lookup that found an entry
    before finds the same one after. *)
Theorem child_contexts_are_pushed_unconditionally (config : list DropdownConfig)
    (dropdownId value : string) (data : DataStore) :
  (∀ child, child ∈ config → cfg_dependsOn child = Some dropdownId →
     (List.length (filter (λ r, relationKey r = (dropdownId, value, cfg_id child))
                (store_relations data))
      < List.length (filter (λ r, relationKey r = (dropdownId, value, cfg_id child))
                  (store_relations (pushChildRelations config dropdownId value data))))%nat
     ∧ ¬ NoDup (relationKey <$>
                  store_relations
                    (pushChildRelations config dropdownId value
                       (pushChildRelations config dropdownId value data)))) ∧
  (∀ p pv c found, findRelation (store_relations data) p pv c = Some found →
     findRelation
       (store_relations (pushChildRelations config dropdownId value data)) p pv c
     = Some found).
Proof.
  split.
  - intros child Hchild Hdep.
    assert (mkRelation dropdownId value (cfg_id child) []
            ∈ (λ c, mkRelation dropdownId value (cfg_id c) [])
                <$> childDropdownsOf config dropdownId) as Hnew.
    { apply (list_elem_of_fmap_2
               (λ c, mkRelation dropdownId value (cfg_id c) [])).
      unfold childDropdownsOf. by apply list_elem_of_filter. }
    split.
    + rewrite relations_pushChildRelations, filter_app, length_app.
      assert (mkRelation dropdownId value (cfg_id child) []
              ∈ filter (λ r, relationKey r = (dropdownId, value, cfg_id child))
                  ((λ c, mkRelation dropdownId value (cfg_id c) [])
                     <$> childDropdownsOf config dropdownId)) as Hin.
      { by apply list_elem_of_filter. }
      destruct (filter _ (_ <$> childDropdownsOf config dropdownId));
        [by apply elem_of_nil in Hin|simpl; lia].
    + rewrite !relations_pushChildRelations, !fmap_app.
      intros [_ [Hdisj _]]%NoDup_app.
      apply (Hdisj (dropdownId, value, cfg_id child)).
      * apply elem_of_app. right.
        by apply (list_elem_of_fmap_2 relationKey) in Hnew.
      * by apply (list_elem_of_fmap_2 relationKey) in Hnew.
  - intros p pv c [i r] Hfound. rewrite relations_pushChildRelations.
    unfold findRelation in *. by apply list_find_app_l.
Qed.

(** C3 as claimed fails.  [Foo] is added to [b] under [a = x], [a] is
    changed to [y], and [Foo] is added to [b] under [a = y]: each addition
    pushes the empty relation of [c] under [b = Foo], and the store ends
    with two entries for the triple [(b, Foo, c)]. *)
Lemma relation_triple_stored_twice :
  ((λ st', store_relations (dropdownData st')) <$> Sample.fooTwice)
    = Some [ mkRelation "a" "x" "b" [mkOption "Foo" "Foo"];
             mkRelation "b" "Foo" "c" [];
             mkRelation "a" "y" "b" [mkOption "Foo" "Foo"];
             mkRelation "b" "Foo" "c" [] ] ∧
  ¬ NoDup (relationKey <$>
             [ mkRelation "a" "x" "b" [mkOption "Foo" "Foo"];
               mkRelation "b" "Foo" "c" [];
               mkRelation "a" "y" "b" [mkOption "Foo" "Foo"];
               mkRelation "b" "Foo" "c" [] ]).
Proof.
  split; [vm_compute; reflexivity|].
  intros Hnd. apply (bool_decide_pack _) in Hnd. by vm_compute in Hnd.
Qed.

(** C4, what the code does at the failing input.  The dropdown [f] has
    the option with value [1] and label [apple].  Adding [Apple] is
    accepted by [saveNewOption], which compares values only: the store
    ends with two options whose labels differ in case alone, and the
    toast reports a success.  The test of the bulk import rejects the
    same label. *)
Theorem single_add_accepts_a_duplicate_label :
  getDropdownOptions (dropdownData Sample.fruitStarted)
    (selections Sample.fruitStarted)
    (mkConfig "f" "Fruit" [mkOption "1" "apple"] None (Some true))
    = [mkOption "1" "apple"] ∧
  existsInSave [mkOption "1" "apple"] "Apple" = false ∧
  existsInImport [mkOption "1" "apple"] "Apple" "Apple" = true ∧
  ∃ st', saveNewOption Sample.fruit 5 (Sample.naming "f" "Apple" Sample.fruitStarted)
           = Some st' ∧
         store_options (dropdownData st') !! "f"
           = Some [mkOption "1" "apple"; mkOption "Apple" "Apple"] ∧
         toast_title <$> toasts st' = ["Option Added"] ∧
         selections st' !! "f" = Some "Apple".
Proof.
  split; [reflexivity|]. split; [reflexivity|]. split; [reflexivity|].
  eexists. split; [vm_compute; reflexivity|].
  split; [|split]; vm_compute; reflexivity.
Qed.

(** ** Labels and values *)

Lemma replaceRuns_noWhiteSpace inRun s : noWhiteSpace (Str.replaceRuns inRun s) = true.
Proof.
  revert inRun. induction s as [|c s IH]; intros inRun; simpl; [done|].
  destruct (Str.isWhiteSpace c) eqn:Hc.
  - destruct inRun; simpl; by rewrite IH.
  - simpl. by rewrite Hc, IH.
Qed.

Lemma replaceRuns_fixed inRun s : noWhiteSpace s = true → Str.replaceRuns inRun s = s.
Proof.
  revert inRun. induction s as [|c s IH]; intros inRun; simpl; [done|].
  intros [Hc Hs]%andb_true_iff. apply negb_true_iff in Hc. rewrite Hc.
  by rewrite IH.
Qed.

Lemma replaceRuns_empty inRun s :
  Str.replaceRuns inRun s = "" → allWhiteSpace s = true.
Proof.
  revert inRun. induction s as [|c s IH]; intros inRun; simpl; [done|].
  destruct (Str.isWhiteSpace c); [|done]. destruct inRun; [|done].
  simpl. apply IH.
Qed.

Lemma lowerChar_isWhiteSpace c : Str.isWhiteSpace (Str.lowerChar c) = Str.isWhiteSpace c.
Proof.
  destruct c as [b0 b1 b2 b3 b4 b5 b6 b7].
  destruct b0, b1, b2, b3, b4, b5, b6, b7; reflexivity.
Qed.

Lemma lowerChar_idempotent c : Str.lowerChar (Str.lowerChar c) = Str.lowerChar c.
Proof.
  destruct c as [b0 b1 b2 b3 b4 b5 b6 b7].
  destruct b0, b1, b2, b3, b4, b5, b6, b7; reflexivity.
Qed.

(** Lowering the case and replacing the white space commute. *)
Lemma toLowerCase_replaceRuns inRun s :
  Str.toLowerCase (Str.replaceRuns inRun s) = Str.replaceRuns inRun (Str.toLowerCase s).
Proof.
  revert inRun. induction s as [|c s IH]; intros inRun; simpl; [done|].
  rewrite lowerChar_isWhiteSpace. destruct (Str.isWhiteSpace c).
  - destruct inRun; simpl; by rewrite IH.
  - simpl. by rewrite IH.
Qed.

Lemma trimEnd_idempotent s : Str.trimEnd (Str.trimEnd s) = Str.trimEnd s.
Proof.
  induction s as [|c s IH]; simpl; [done|].
  destruct (Str.trimEnd s) as [|a r] eqn:Hs.
  - destruct (Str.isWhiteSpace c) eqn:Hc; simpl; [done|]. by rewrite Hc.
  - simpl in *. by rewrite IH.
Qed.

Lemma trimStart_fixed c s :
  Str.isWhiteSpace c = false → Str.trimStart (String c s) = String c s.
Proof. intros Hc. simpl. by rewrite Hc. Qed.

Lemma trimEnd_head c s :
  Str.isWhiteSpace c = false → ∃ r, Str.trimEnd (String c s) = String c r.
Proof.
  intros Hc. simpl. destruct (Str.trimEnd s); [|by eexists].
  rewrite Hc. by eexists.
Qed.

(** [trim] does nothing to a text it has already trimmed. *)
Lemma trim_idempotent s : Str.trim (Str.trim s) = Str.trim s.
Proof.
  unfold Str.trim. destruct (Str.trimStart s) as [|c t] eqn:Hs; [done|].
  pose proof (trimStart_head _ _ _ Hs) as Hc.
  destruct (trimEnd_head c t Hc) as [r Hr]. rewrite Hr.
  rewrite (trimStart_fixed c r Hc), <- Hr. apply trimEnd_idempotent.
Qed.

Lemma trim_head s c r : Str.trim s = String c r → Str.isWhiteSpace c = false.
Proof.
  unfold Str.trim. destruct (Str.trimStart s) as [|a t] eqn:Hs; [done|].
  pose proof (trimStart_head _ _ _ Hs) as Ha.
  destruct (trimEnd_head a t Ha) as [r' Hr]. rewrite Hr. by intros [= <- _].
Qed.

(** The value derived from a trimmed, non-empty label is not empty. *)
Lemma replaceWhitespace_trim_nonempty s :
  Str.trim s ≠ "" → Str.replaceWhitespace (Str.trim s) ≠ "".
Proof.
  intros Hne. destruct (Str.trim s) as [|c r] eqn:Hs; [done|].
  apply trim_head in Hs. unfold Str.replaceWhitespace. simpl. by rewrite Hs.
Qed.

Lemma elem_of_importedLines text line :
  line ∈ importedLines text ↔
  line ≠ "" ∧ ∃ raw, raw ∈ Str.splitLines text ∧ line = Str.trim raw.
Proof.
  unfold importedLines. rewrite list_elem_of_filter, list_elem_of_fmap. split.
  - intros [Hne (raw & -> & Hraw)]. eauto.
  - intros [Hne (raw & Hraw & ->)]. eauto.
Qed.

Lemma trimStart_hasNewline s :
  hasNewline s = false → hasNewline (Str.trimStart s) = false.
Proof.
  induction s as [|c s IH]; simpl; [done|].
  intros [Hc Hs]%orb_false_iff. destruct (Str.isWhiteSpace c); [by apply IH|].
  simpl. by rewrite Hc, Hs.
Qed.

Lemma trimEnd_hasNewline s :
  hasNewline s = false → hasNewline (Str.trimEnd s) = false.
Proof.
  induction s as [|c s IH]; simpl; [done|].
  intros [Hc Hs]%orb_false_iff. specialize (IH Hs).
  destruct (Str.trimEnd s) as [|a r].
  - destruct (Str.isWhiteSpace c); simpl; [done|]. by rewrite Hc.
  - cbn [hasNewline] in *. by rewrite Hc, IH.
Qed.

Lemma splitLines_hasNewline s raw :
  raw ∈ Str.splitLines s → hasNewline raw = false.
Proof.
  revert raw. induction s as [|c s IH]; intros raw; simpl.
  - by intros ->%list_elem_of_singleton.
  - destruct (Ascii.eqb c "010"%char) eqn:Hc.
    + intros [->|Hraw]%elem_of_cons; [done|by apply IH].
    + destruct (Str.splitLines s) as [|l ls].
      * intros ->%list_elem_of_singleton. simpl. by rewrite Hc.
      * intros [->|Hraw]%elem_of_cons.
        -- simpl. rewrite Hc. apply IH. by left.
        -- apply IH. by right.
Qed.

Lemma importedLines_trim_fixed text line :
  line ∈ importedLines text → Str.trim line = line.
Proof.
  intros [_ (raw & _ & ->)]%elem_of_importedLines. apply trim_idempotent.
Qed.

Lemma splitLines_allWhiteSpace s raw :
  allWhiteSpace s = true → raw ∈ Str.splitLines s → allWhiteSpace raw = true.
Proof.
  revert raw. induction s as [|c s IH]; intros raw; simpl.
  - by intros _ ->%list_elem_of_singleton.
  - intros [Hc Hs]%andb_true_iff. destruct (Ascii.eqb c "010"%char).
    + intros [->|Hraw]%elem_of_cons; [done|by apply IH].
    + destruct (Str.splitLines s) as [|l ls].
      * intros ->%list_elem_of_singleton. simpl. by rewrite Hc.
      * intros [->|Hraw]%elem_of_cons.
        -- simpl. rewrite Hc. apply IH; [done|by left].
        -- apply IH; [done|by right].
Qed.

(** A text that trims to the empty string has no line to import. *)
Lemma importedLines_blank text : Str.trim text = "" → importedLines text = [].
Proof.
  intros Hblank%trim_empty.
  destruct (importedLines text) as [|line lines] eqn:Hlines; [done|].
  assert (line ∈ importedLines text) as Hline by (rewrite Hlines; by left).
  apply elem_of_importedLines in Hline as [Hne (raw & Hraw & ->)].
  destruct Hne. by apply trim_empty, (splitLines_allWhiteSpace text).
Qed.

(** X1.  The value derived from a label holds no white space, deriving
    twice changes nothing, and a label without white space is its own
    value. *)
Theorem derived_value_has_no_white_space (label : string) :
  noWhiteSpace (Str.replaceWhitespace label) = true ∧
  Str.replaceWhitespace (Str.replaceWhitespace label) = Str.replaceWhitespace label ∧
  (noWhiteSpace label = true → Str.replaceWhitespace label = label).
Proof.
  unfold Str.replaceWhitespace. split_and!.
  - apply replaceRuns_noWhiteSpace.
  - apply replaceRuns_fixed, replaceRuns_noWhiteSpace.
  - apply replaceRuns_fixed.
Qed.

(** X2.  Every line a bulk import works on is a non-empty, trimmed,
    single line: trimming it again (as the loop does) gives the line
    itself, it holds no line feed, and the value derived from it is not
    empty. *)
Theorem imported_lines_are_trimmed (text line : string) :
  line ∈ importedLines text →
  line ≠ "" ∧ Str.trim line = line ∧ hasNewline line = false ∧
  Str.replaceWhitespace line ≠ "".
Proof.
  intros [Hne (raw & Hraw & ->)]%elem_of_importedLines. split_and!.
  - done.
  - apply trim_idempotent.
  - unfold Str.trim. apply trimEnd_hasNewline, trimStart_hasNewline.
    by eapply splitLines_hasNewline.
  - by apply replaceWhitespace_trim_nonempty.
Qed.

Lemma imported_lines_are_trimmed_witness :
  "Galaxy S" ∈ importedLines ("  Galaxy S  " +:+ NEWLINE +:+ " " +:+ NEWLINE +:+ "Pixel") ∧
  Str.trim "Galaxy S" = "Galaxy S" ∧
  Str.replaceWhitespace "Galaxy S" ≠ "".
Proof.
  assert ("Galaxy S" ∈ importedLines
            ("  Galaxy S  " +:+ NEWLINE +:+ " " +:+ NEWLINE +:+ "Pixel")) as Hin.
  { vm_compute. by left. }
  destruct (imported_lines_are_trimmed _ _ Hin) as (_ & Htrim & _ & Hvalue).
  done.
Defined.

Lemma derived_match o label :
  derived o →
  Str.toLowerCase (opt_label o) = Str.toLowerCase label →
  Str.toLowerCase (opt_value o) = Str.toLowerCase (Str.replaceWhitespace label).
Proof.
  unfold derived, Str.replaceWhitespace. intros -> Hl.
  by rewrite !toLowerCase_replaceRuns, Hl.
Qed.

(** X3.  When every option of a context has the value derived from its
    label (as every option added through the component has), a label
    that matches an existing label up to case also matches its value up to
    case: the test of the bulk import and the test of the single addition
    give the same verdict. *)
Theorem label_match_implies_value_match (existing : list DropdownOption)
    (label : string) :
  Forall derived existing →
  existsInImport existing (Str.replaceWhitespace label) label
  = existsInSave existing (Str.replaceWhitespace label).
Proof.
  induction 1 as [|o l Ho _ IH]; [done|].
  unfold existsInImport, existsInSave in *. cbn [existsb]. rewrite IH. f_equal.
  destruct (String.eqb_spec (Str.toLowerCase (opt_label o)) (Str.toLowerCase label))
    as [Hl|_]; [|by rewrite orb_false_r].
  by rewrite (derived_match o label Ho Hl), String.eqb_refl.
Qed.

Lemma label_match_implies_value_match_witness :
  Forall derived [optionOf "Galaxy S"; optionOf "Pixel"] ∧
  existsInImport [optionOf "Galaxy S"; optionOf "Pixel"]
    (Str.replaceWhitespace "GALAXY S") "GALAXY S"
  = existsInSave [optionOf "Galaxy S"; optionOf "Pixel"]
      (Str.replaceWhitespace "GALAXY S").
Proof.
  assert (Forall derived [optionOf "Galaxy S"; optionOf "Pixel"]) as H.
  { by repeat constructor. }
  split; [exact H|].
  exact (label_match_implies_value_match _ "GALAXY S" H).
Defined.

(** ** More on selections *)

Lemma descendant_trans config a b c :
  descendant config a b → descendant config b c → descendant config a c.
Proof.
  intros Hab Hbc. induction Hab as [a d Hd Hp|a d x Hd Hp _ IH].
  - by apply descendant_below with d.
  - apply descendant_below with d; [done..|]. by apply IH.
Qed.

(** Every field of the state after a selection that is not the sentinel. *)
Lemma handleSelection_state config fuel d v st st' :
  v ≠ ADD_NEW →
  handleSelection config fuel d v st = Some st' →
  ∃ ds, findDependentDropdowns config fuel d = Some ds ∧
        st' = onSelectionChange (clearDependents ds (<[d := v]> (selections st)))
                (set_refreshing
                   (<[d := false]> (<[d := true]> (refreshing st)))
                   (set_selections (clearDependents ds (<[d := v]> (selections st)))
                      (set_refreshing (<[d := true]> (refreshing st)) st))).
Proof.
  intros Hv. unfold handleSelection.
  destruct (String.eqb_spec v ADD_NEW) as [|_]; [done|].
  destruct (findDependentDropdowns config fuel d) as [ds|]; [|done].
  simpl. intros [= <-]. by exists ds.
Qed.

(** X4.  A selection touches nothing but the snapshot entries of the
    dropdown and of its descendants: the store and the toasts are as
    before, every other entry of the snapshot is as before, the loading
    flag of the dropdown is back to false, and the listener is told the
    new snapshot, once. *)
Theorem selection_frame (config : list DropdownConfig) (fuel : nat)
    (d v : string) (st st' : State) :
  v ≠ ADD_NEW →
  handleSelection config fuel d v st = Some st' →
  dropdownData st' = dropdownData st ∧
  toasts st' = toasts st ∧
  (∀ k, k ≠ d → ¬ descendant config d k →
        selections st' !! k = selections st !! k) ∧
  refreshing st' !! d = Some false ∧
  selectionEvents st' = selectionEvents st ++ [selections st'].
Proof.
  intros Hv H.
  destruct (handleSelection_state _ _ _ _ _ _ Hv H) as (ds & Hds & ->).
  split_and!; try done.
  - intros k Hk Hdesc. cbn [selections onSelectionChange set_refreshing set_selections].
    rewrite clearDependents_lookup, decide_False.
    + by rewrite lookup_insert_ne.
    + intros Hin. by apply Hdesc, (findDependentDropdowns_descendant _ _ _ _ Hds).
  - cbn. apply lookup_insert_eq.
Qed.

Lemma selection_frame_witness :
  "y" ≠ ADD_NEW ∧
  ∃ st', handleSelection Sample.chain 3 "b" "y" Sample.started = Some st' ∧
         dropdownData st' = dropdownData Sample.started ∧
         selections st' !! "a" = Some "x".
Proof.
  split; [discriminate|].
  destruct (handleSelection Sample.chain 3 "b" "y" Sample.started)
    as [st'|] eqn:H; [|by vm_compute in H].
  exists st'. split; [reflexivity|].
  destruct (selection_frame Sample.chain 3 "b" "y" Sample.started st')
    as (Hdata & _ & Hother & _); [discriminate|exact H|].
  split; [exact Hdata|].
  rewrite Hother; [reflexivity|discriminate|].
  intros Hdesc. apply (descendant_rank Sample.chain Sample.chainRank) in Hdesc;
    [|reflexivity].
  vm_compute in Hdesc. lia.
Defined.

(** X5.  Selecting again the value that has just been selected returns
    and leaves the snapshot as it is. *)
Theorem reselection_changes_nothing (config : list DropdownConfig) (fuel : nat)
    (d v : string) (st st1 : State) :
  v ≠ ADD_NEW →
  handleSelection config fuel d v st = Some st1 →
  ∃ st2, handleSelection config fuel d v st1 = Some st2 ∧
         selections st2 = selections st1.
Proof.
  intros Hv H.
  destruct (handleSelection_state _ _ _ _ _ _ Hv H) as (ds & Hds & ->).
  unfold handleSelection.
  destruct (String.eqb_spec v ADD_NEW) as [|_]; [done|].
  rewrite Hds. simpl. eexists. split; [reflexivity|].
  cbn [selections onSelectionChange set_refreshing set_selections].
  apply map_eq. intros k. rewrite !clearDependents_lookup.
  destruct (decide (k ∈ ds)); [done|].
  destruct (decide (k = d)) as [->|Hne].
  - by rewrite !lookup_insert_eq.
  - rewrite !lookup_insert_ne by done.
    by rewrite clearDependents_lookup, decide_False, lookup_insert_ne.
Qed.

Lemma reselection_changes_nothing_witness :
  "y" ≠ ADD_NEW ∧
  ∃ st1 st2, handleSelection Sample.chain 3 "a" "y" Sample.started = Some st1 ∧
             handleSelection Sample.chain 3 "a" "y" st1 = Some st2 ∧
             selections st2 = selections st1.
Proof.
  split; [discriminate|].
  destruct (handleSelection Sample.chain 3 "a" "y" Sample.started)
    as [st1|] eqn:H; [|by vm_compute in H].
  destruct (reselection_changes_nothing Sample.chain 3 "a" "y" Sample.started st1)
    as (st2 & H2 & Hsel); [discriminate|exact H|].
  by exists st1, st2.
Defined.

(** X6.  After a selection in [p], a dropdown whose parent is a descendant
    of [p] is offered no option at all, whatever the store holds: two
    levels below a change everything is closed until the levels in
    between are chosen again. *)
Theorem selection_closes_lower_levels (config : list DropdownConfig)
    (fuel : nat) (p v : string) (st st' : State) (dropdown : DropdownConfig)
    (q : string) (data : DataStore) :
  v ≠ ADD_NEW →
  handleSelection config fuel p v st = Some st' →
  isDependent dropdown = true → cfg_dependsOn dropdown = Some q →
  descendant config p q →
  getDropdownOptions data (selections st') dropdown = [].
Proof.
  intros Hv H Hdep Hq Hdesc.
  destruct (handleSelection_state _ _ _ _ _ _ Hv H) as (ds & Hds & ->).
  unfold isDependent in Hdep. unfold getDropdownOptions. rewrite Hdep, Hq. simpl.
  rewrite clearDependents_lookup, decide_True; [done|].
  by apply (findDependentDropdowns_descendant _ _ _ _ Hds).
Qed.

Lemma selection_closes_lower_levels_witness :
  "y" ≠ ADD_NEW ∧
  ∃ st', handleSelection Sample.chain 3 "a" "y" Sample.started = Some st' ∧
         getDropdownOptions
           (mkStore ∅ [mkRelation "b" "" "c" [mkOption "s" "S"];
                       mkRelation "b" "Foo" "c" [mkOption "t" "T"]])
           (selections st') Sample.dropdownC = [].
Proof.
  split; [discriminate|].
  destruct (handleSelection Sample.chain 3 "a" "y" Sample.started)
    as [st'|] eqn:H; [|by vm_compute in H].
  exists st'. split; [reflexivity|].
  apply (selection_closes_lower_levels Sample.chain 3 "a" "y" Sample.started st'
           Sample.dropdownC "b");
    [discriminate|exact H|reflexivity|reflexivity|exact chain_a_b].
Defined.

(** ** More on the breadcrumb *)

Section PathFacts.

Variable config : list DropdownConfig.

Lemma getSelectionPath_terminates rank fuel data sel dropdownId :
  forallb (respectsRank rank) config = true →
  (maxRank rank config + 2 < fuel)%nat →
  is_Some (getSelectionPath config fuel data sel dropdownId).
Proof.
  intros Hr Hlt. unfold getSelectionPath.
  destruct (findConfig config dropdownId) as [d|]; [|done].
  destruct (negb (truthy (cfg_dependsOn d))); [done|].
  destruct (walkUp_terminates config rank fuel data sel
              (default "" (cfg_dependsOn d)) [] Hr) as [labels ->]; [lia|done].
Qed.

Lemma displayLabelOf_agree data sel sel' parentDropdown parentId parentValue :
  (∀ q, cfg_dependsOn parentDropdown = Some q → sel !! q = sel' !! q) →
  displayLabelOf data sel parentDropdown parentId parentValue
  = displayLabelOf data sel' parentDropdown parentId parentValue.
Proof.
  intros Hq. unfold displayLabelOf.
  destruct (cfg_dependsOn parentDropdown) as [q|]; [|done].
  simpl. by rewrite (Hq q eq_refl).
Qed.

(** The walk reads the snapshot at the ids it visits only, and these are
    ancestors of the id it started below. *)
Lemma walkUp_agree fuel data sel sel' x p labels :
  (∀ q, descendant config q x → sel !! q = sel' !! q) →
  p = "" ∨ descendant config p x →
  walkUp config fuel data sel p labels = walkUp config fuel data sel' p labels.
Proof.
  intros Hagree. revert p labels.
  induction fuel as [|fuel IH]; intros p labels Hp; [done|].
  cbn [walkUp]. destruct Hp as [->|Hp]; [done|].
  destruct (negb (truthy (Some p))); [done|].
  destruct (findConfig config p) as [d|] eqn:Hd; [|done].
  apply findConfig_Some in Hd as [Hd <-].
  rewrite <- (Hagree _ Hp).
  destruct (negb (truthy (sel !! cfg_id d))); [done|].
  assert (∀ q, cfg_dependsOn d = Some q → descendant config q x) as Hup.
  { intros q Hq. eapply descendant_trans; [|exact Hp].
    by apply descendant_child. }
  rewrite (displayLabelOf_agree data sel sel' d).
  - apply IH. destruct (cfg_dependsOn d) as [q|]; [right; by apply Hup|by left].
  - intros q Hq. by apply Hagree, Hup.
Qed.

End PathFacts.

(** X7.  The breadcrumb of a dropdown is the empty string when the
    dropdown is unknown, when it is root-level, and when its parent is
    unknown or has no selected value; it is otherwise empty or starts
    with [" for "]; and on a configuration without a cycle it is always
    computed, whatever is selected. *)
Theorem selection_path_ends (config : list DropdownConfig) (data : DataStore)
    (sel : gmap string string) (dropdownId : string) :
  (∀ fuel, findConfig config dropdownId = None →
     getSelectionPath config fuel data sel dropdownId = Some "") ∧
  (∀ fuel d, findConfig config dropdownId = Some d → isDependent d = false →
     getSelectionPath config fuel data sel dropdownId = Some "") ∧
  (∀ fuel d p, findConfig config dropdownId = Some d → cfg_dependsOn d = Some p →
     findConfig config p = None ∨ sel !! p = None ∨ sel !! p = Some "" →
     getSelectionPath config (S fuel) data sel dropdownId = Some "") ∧
  (∀ fuel path, getSelectionPath config fuel data sel dropdownId = Some path →
     path = "" ∨ ∃ rest, path = " for " +:+ rest) ∧
  (acyclic config →
   ∃ fuel, is_Some (getSelectionPath config fuel data sel dropdownId)).
Proof.
  split_and!.
  - intros fuel H. unfold getSelectionPath. by rewrite H.
  - intros fuel d H Hroot. unfold getSelectionPath, isDependent in *.
    by rewrite H, Hroot.
  - intros fuel d p H Hp Hstop. unfold getSelectionPath. rewrite H, Hp.
    destruct (truthy (Some p)) eqn:Htp; [|done].
    cbn [negb default from_option id walkUp]. rewrite Htp. cbn [negb].
    destruct Hstop as [-> | [Hs|Hs]]; [done|..];
      (destruct (findConfig config p); [|done]); by rewrite Hs.
  - intros fuel path. unfold getSelectionPath.
    destruct (findConfig config dropdownId) as [d|]; [|intros [= <-]; by left].
    destruct (negb (truthy (cfg_dependsOn d))); [intros [= <-]; by left|].
    destruct (walkUp _ _ _ _ _ _) as [[|l ls]|]; simpl; [| |done].
    + intros [= <-]. by left.
    + intros [= <-]. right. by eexists.
  - intros [rank Hrank]. exists (maxRank rank config + 3).
    apply (getSelectionPath_terminates config rank); [done|lia].
Qed.

Lemma selection_path_ends_witness :
  acyclic Sample.chain ∧
  (∃ fuel, is_Some (getSelectionPath Sample.chain fuel Demo.emptyData
                      {[ "a" := "x"; "b" := "Foo" ]} "c")) ∧
  getSelectionPath Sample.chain 1 Demo.emptyData {[ "a" := "x" ]} "c" = Some "".
Proof.
  destruct (selection_path_ends Sample.chain Demo.emptyData {[ "a" := "x" ]} "c")
    as (_ & _ & Hstop & _).
  destruct (selection_path_ends Sample.chain Demo.emptyData
              {[ "a" := "x"; "b" := "Foo" ]} "c") as (_ & _ & _ & _ & Hterm).
  split; [exact chain_acyclic|]. split; [exact (Hterm chain_acyclic)|].
  apply (Hstop 0 Sample.dropdownC "b"); [reflexivity|reflexivity|].
  right; left. reflexivity.
Defined.

(** X8.  The breadcrumb of a dropdown depends on the snapshot through the
    entries of its ancestors only: two snapshots that agree on every
    ancestor give the same breadcrumb, whatever they hold for the dropdown
    itself and below it. *)
Theorem selection_path_reads_ancestors_only (config : list DropdownConfig)
    (fuel : nat) (data : DataStore) (sel sel' : gmap string string)
    (dropdownId : string) :
  (∀ q, descendant config q dropdownId → sel !! q = sel' !! q) →
  getSelectionPath config fuel data sel dropdownId
  = getSelectionPath config fuel data sel' dropdownId.
Proof.
  intros Hagree. unfold getSelectionPath.
  destruct (findConfig config dropdownId) as [d|] eqn:Hd; [|done].
  apply findConfig_Some in Hd as [Hd <-].
  destruct (negb (truthy (cfg_dependsOn d))); [done|].
  rewrite (walkUp_agree config fuel data sel sel' (cfg_id d)); [done|done|].
  destruct (cfg_dependsOn d) as [q|] eqn:Hq; [right; by apply descendant_child|by left].
Qed.

Lemma selection_path_reads_ancestors_only_witness :
  getSelectionPath Sample.chain 5 Demo.emptyData
    {[ "a" := "x"; "b" := "Foo" ]} "b"
  = getSelectionPath Sample.chain 5 Demo.emptyData
      {[ "a" := "x"; "b" := "Bar"; "c" := "Baz" ]} "b".
Proof.
  apply (selection_path_reads_ancestors_only Sample.chain 5 Demo.emptyData).
  intros q Hq.
  destruct (decide (q = "a")) as [->|Hne]; [reflexivity|].
  apply (descendant_rank Sample.chain Sample.chainRank) in Hq; [|reflexivity].
  unfold Sample.chainRank in Hq.
  destruct (String.eqb_spec q "a"); [done|].
  destruct (String.eqb q "b"); simpl in Hq; lia.
Defined.

(** ** More on the default selections *)

Lemma foldl_defaultStep_origin data l (m : gmap string string) k v :
  foldl (defaultStep data) m l !! k = Some v →
  m !! k = Some v ∨
  ∃ d first rest, d ∈ l ∧ isDependent d = false ∧ cfg_id d = k ∧
    default (cfg_options d) (store_options data !! cfg_id d) = first :: rest ∧
    v = opt_value first.
Proof.
  revert m. induction l as [|d l IH]; intros m; cbn [foldl]; [by left|].
  intros [Hm|(d' & first & rest & Hd' & ?)]%IH.
  - unfold defaultStep in Hm. unfold isDependent.
    destruct (truthy (cfg_dependsOn d)) eqn:Hdep; cbn [negb] in Hm; [by left|].
    destruct (default _ _) as [|first rest] eqn:Hopts; [by left|].
    destruct (decide (cfg_id d = k)) as [<-|Hne].
    + rewrite lookup_insert_eq in Hm. injection Hm as <-.
      right. exists d, first, rest. split; [by left|done].
    + rewrite lookup_insert_ne in Hm by done. by left.
  - right. exists d', first, rest. split; [by right|done].
Qed.

(** X9.  The effect that installs the defaults never changes the store
    and never shows a toast, in any state.  It removes and rewrites no
    entry of the snapshot, and it writes nothing but first options of
    root-level dropdowns of the configuration: an entry of the snapshot
    it returns was there before, or is the value of the first option
    resolved for a root-level dropdown with that id. *)
Theorem defaults_come_from_root_options (config : list DropdownConfig)
    (st : State) :
  dropdownData (initializeDefaults config st) = dropdownData st ∧
  toasts (initializeDefaults config st) = toasts st ∧
  (∀ k v, selections st !! k = Some v →
          selections (initializeDefaults config st) !! k = Some v) ∧
  (∀ k v, selections (initializeDefaults config st) !! k = Some v →
     selections st !! k = Some v ∨
     ∃ d first rest, d ∈ config ∧ isDependent d = false ∧ cfg_id d = k ∧
       getDropdownOptions (dropdownData st) (selections st) d = first :: rest ∧
       v = opt_value first).
Proof.
  split_and!.
  - unfold initializeDefaults. by repeat case_match.
  - unfold initializeDefaults. by repeat case_match.
  - intros k v Hk.
    destruct (initializeDefaults_selections config st)
      as [->|(_ & _ & Hempty & _)]; [done|].
    by rewrite Hempty, lookup_empty in Hk.
  - intros k v Hk.
    destruct (initializeDefaults_selections config st)
      as [Heq|(_ & _ & _ & Heq)]; rewrite Heq in Hk; [by left|].
    apply foldl_defaultStep_origin in Hk
      as [Hk|(d & first & rest & Hd & Hroot & Hid & Hopts & ->)].
    + by rewrite lookup_empty in Hk.
    + right. exists d, first, rest. split_and!; try done.
      unfold getDropdownOptions. unfold isDependent in Hroot. by rewrite Hroot.
Qed.

Lemma defaults_come_from_root_options_witness :
  selections (initializeDefaults Sample.chain (mount Sample.chain None None)) !! "a"
    = Some "x" ∧
  dropdownData (initializeDefaults Sample.chain (mount Sample.chain None None))
    = dropdownData (mount Sample.chain None None) ∧
  ∃ d first rest, d ∈ Sample.chain ∧ isDependent d = false ∧ cfg_id d = "a" ∧
    getDropdownOptions (dropdownData (mount Sample.chain None None)) ∅ d
      = first :: rest ∧
    "x" = opt_value first.
Proof.
  assert (selections (initializeDefaults Sample.chain (mount Sample.chain None None))
            !! "a" = Some "x") as H by reflexivity.
  destruct (defaults_come_from_root_options Sample.chain
              (mount Sample.chain None None)) as (Hstore & _ & _ & Horigin).
  split; [exact H|]. split; [exact Hstore|].
  destruct (Horigin "a" "x" H) as [Hold|Hnew].
  - exfalso. by vm_compute in Hold.
  - exact Hnew.
Defined.

(** ** The store at construction *)

Lemma seedStep_lookup (m : gmap string (list DropdownOption)) d :
  seedStep m d !! cfg_id d = Some (cfg_options d).
Proof. unfold seedStep. rewrite lookup_insert_eq. by destruct (cfg_options d). Qed.

Lemma foldl_seedStep_other l (m : gmap string (list DropdownOption)) k :
  k ∉ cfg_id <$> l → foldl seedStep m l !! k = m !! k.
Proof.
  revert m. induction l as [|d l IH]; intros m Hk; [done|].
  rewrite fmap_cons in Hk. apply not_elem_of_cons in Hk as [Hne Hk].
  cbn [foldl]. rewrite IH by done. unfold seedStep. by rewrite lookup_insert_ne.
Qed.

Lemma foldl_seedStep_dom l (m : gmap string (list DropdownOption)) k :
  is_Some (foldl seedStep m l !! k) ↔ is_Some (m !! k) ∨ k ∈ cfg_id <$> l.
Proof.
  revert m. induction l as [|d l IH]; intros m; cbn [foldl].
  - split; [by left|]. intros [?|Hk]; [done|]. by apply elem_of_nil in Hk.
  - rewrite IH, fmap_cons, elem_of_cons.
    destruct (decide (cfg_id d = k)) as [<-|Hne].
    + rewrite seedStep_lookup. split; [by right; left|by left].
    + unfold seedStep. rewrite lookup_insert_ne by done. split.
      * intros [?|?]; [by left|by right; right].
      * intros [?|[?|?]]; [by left|congruence|by right].
Qed.

Lemma foldl_seedStep_own l (m : gmap string (list DropdownOption)) d :
  NoDup (cfg_id <$> l) → d ∈ l →
  foldl seedStep m l !! cfg_id d = Some (cfg_options d).
Proof.
  revert m. induction l as [|d0 l IH]; intros m Hnd Hd.
  - by apply elem_of_nil in Hd.
  - rewrite fmap_cons in Hnd. apply NoDup_cons in Hnd as [Hd0 Hnd].
    cbn [foldl]. apply elem_of_cons in Hd as [->|Hd].
    + rewrite foldl_seedStep_other by done. apply seedStep_lookup.
    + by apply IH.
Qed.

(** X10.  With no [initialData] and nothing saved, the store the component
    starts from has no relation and exactly one list of root options per
    id of the configuration; with unique ids, it is the list of options
    the configuration gives for that id. *)
Theorem default_store_mirrors_configuration (config : list DropdownConfig) :
  store_relations (initialDropdownData config None None) = [] ∧
  (∀ k, is_Some (store_options (initialDropdownData config None None) !! k)
        ↔ k ∈ cfg_id <$> config) ∧
  (NoDup (cfg_id <$> config) →
   ∀ d, d ∈ config →
        store_options (initialDropdownData config None None) !! cfg_id d
        = Some (cfg_options d)).
Proof.
  split; [done|].
  change (store_options (initialDropdownData config None None))
    with (foldl seedStep ∅ config).
  split.
  - intros k. rewrite foldl_seedStep_dom, lookup_empty. split; [|by right].
    intros [[? ?]|?]; done.
  - intros Hnd d Hd. by apply foldl_seedStep_own.
Qed.

Lemma default_store_mirrors_configuration_witness :
  NoDup (cfg_id <$> Sample.chain) ∧
  store_options (initialDropdownData Sample.chain None None) !! "a"
    = Some [mkOption "x" "X"; mkOption "y" "Y"] ∧
  store_options (initialDropdownData Sample.chain None None) !! "c" = Some [].
Proof.
  split; [exact chain_ids_unique|].
  destruct (default_store_mirrors_configuration Sample.chain) as (_ & _ & Hval).
  split.
  - exact (Hval chain_ids_unique Sample.dropdownA ltac:(by left)).
  - exact (Hval chain_ids_unique Sample.dropdownC chain_has_c).
Defined.

(** ** The store under additions *)

Section Store.

Variable config : list DropdownConfig.

Lemma pushOption_key o r : relationKey (pushOption o r) = relationKey r.
Proof. done. Qed.

Lemma relationKey_eq r p pv c :
  rel_parent r = p ∧ rel_parentValue r = pv ∧ rel_child r = c
  ↔ relationKey r = (p, pv, c).
Proof. unfold relationKey. split; [by intros (-> & -> & ->)|by intros [= -> -> ->]]. Qed.

(** After [addRelationOption] the context has a relation, the first with
    its triple, and the relation ends with the new option. *)
Lemma findRelation_addRelationOption p pv c o data :
  ∃ i r', findRelation (store_relations (addRelationOption p pv c o data)) p pv c
            = Some (i, r') ∧
          rel_options r'
            = match findRelation (store_relations data) p pv c with
              | Some (_, r) => rel_options r
              | None => []
              end ++ [o].
Proof.
  unfold addRelationOption, findRelation. cbn [store_relations].
  destruct (list_find _ (store_relations data)) as [[i r]|] eqn:Hfind.
  - exists i, (pushOption o r). split; [|done].
    apply list_find_Some in Hfind as (Hi & HP & Hleast).
    apply list_find_Some. split; [|split].
    + by rewrite list_lookup_alter_eq, Hi.
    + exact HP.
    + intros j y Hj Hlt. rewrite list_lookup_alter_ne in Hj by lia.
      by apply (Hleast j).
  - rewrite list_find_app_r by done. cbn.
    rewrite decide_True by done. cbn. by eexists _, _.
Qed.

(** A list of relations that keeps every entry in place, with its triple,
    gives every lookup that succeeded the same index. *)
Lemma findRelation_kept (l l' : list DropdownRelation) p pv c i r :
  (∀ j y, l !! j = Some y →
     ∃ y', l' !! j = Some y' ∧ relationKey y' = relationKey y ∧
           rel_options y `prefix_of` rel_options y') →
  findRelation l p pv c = Some (i, r) →
  ∃ r', findRelation l' p pv c = Some (i, r') ∧
        rel_options r `prefix_of` rel_options r'.
Proof.
  intros Hkept (Hi & HP & Hleast)%list_find_Some.
  destruct (Hkept i r Hi) as (r' & Hi' & Hkey & Hpre).
  exists r'. split; [|done]. apply list_find_Some. split; [|split].
  - done.
  - apply relationKey_eq. rewrite Hkey. by apply relationKey_eq.
  - intros j y' Hj Hlt HP'.
    destruct (lookup_lt_is_Some_2 l j) as [y Hy].
    { apply lookup_lt_Some in Hi. lia. }
    destruct (Hkept j y Hy) as (y'' & Hj' & Hkey' & _).
    rewrite Hj in Hj'. injection Hj' as <-.
    apply (Hleast j y Hy Hlt). apply relationKey_eq. rewrite <- Hkey'.
    by apply relationKey_eq.
Qed.

Lemma storeExtends_refl data : storeExtends data data.
Proof. split; [intros k l ?|intros i r ?]; eauto. Qed.

Lemma storeExtends_trans data1 data2 data3 :
  storeExtends data1 data2 → storeExtends data2 data3 → storeExtends data1 data3.
Proof.
  intros [Ho1 Hr1] [Ho2 Hr2]. split.
  - intros k l (l' & Hl' & Hpre)%Ho1.
    destruct (Ho2 k l' Hl') as (l'' & ? & ?). exists l''. split; [done|].
    by etrans.
  - intros i r (r' & Hr' & Hkey & Hpre)%Hr1.
    destruct (Hr2 i r' Hr') as (r'' & ? & Hkey' & ?). exists r''.
    split_and!; [done|congruence|by etrans].
Qed.

Lemma addRootOption_extends aid o data : storeExtends data (addRootOption aid o data).
Proof.
  split; cbn [addRootOption store_options store_relations]; [|by eauto].
  intros k l Hk. destruct (decide (aid = k)) as [->|Hne].
  - rewrite lookup_insert_eq, Hk. eexists. split; [done|]. by apply prefix_app_r.
  - rewrite lookup_insert_ne by done. eauto.
Qed.

Lemma addRelationOption_extends p pv c o data :
  storeExtends data (addRelationOption p pv c o data).
Proof.
  split; cbn [addRelationOption store_options store_relations]; [by eauto|].
  intros i r Hi. destruct (findRelation _ _ _ _) as [[j rj]|].
  - destruct (decide (i = j)) as [->|Hne].
    + rewrite list_lookup_alter_eq, Hi. eexists. split_and!; [done..|].
      by apply prefix_app_r.
    + rewrite list_lookup_alter_ne by done. eauto.
  - rewrite lookup_app_l by (by eapply lookup_lt_Some). eauto.
Qed.

Lemma pushChildRelations_extends aid v data :
  storeExtends data (pushChildRelations config aid v data).
Proof.
  split; cbn [pushChildRelations store_options store_relations]; [by eauto|].
  intros i r Hi. rewrite lookup_app_l by (by eapply lookup_lt_Some). eauto.
Qed.

Lemma insertOption_extends sel d aid o data :
  storeExtends data (insertOption config sel d aid o data).
Proof.
  unfold insertOption. eapply storeExtends_trans; [|apply pushChildRelations_extends].
  destruct (isDependent d);
    [apply addRelationOption_extends|apply addRootOption_extends].
Qed.

(** What an extended store offers starts with what was offered before,
    wherever something was stored before. *)
Lemma storeExtends_options data data' sel d :
  storeExtends data data' →
  isDependent d = true ∨ is_Some (store_options data !! cfg_id d) →
  getDropdownOptions data sel d `prefix_of` getDropdownOptions data' sel d.
Proof.
  intros [Hopts Hrels] Hpresent. unfold getDropdownOptions, isDependent in *.
  destruct (truthy (cfg_dependsOn d)); cbn [negb].
  - destruct (negb (truthy (sel !! _))); [done|].
    destruct (findRelation (store_relations data) _ _ _) as [[i r]|] eqn:Hfind;
      [|apply prefix_nil].
    destruct (findRelation_kept _ _ _ _ _ _ _ Hrels Hfind) as (r' & -> & Hpre).
    done.
  - destruct Hpresent as [|[l Hl]]; [done|].
    destruct (Hopts _ _ Hl) as (l' & Hl' & Hpre). by rewrite Hl, Hl'.
Qed.

Lemma storedOptions_present data sel d :
  isDependent d = true ∨ is_Some (store_options data !! cfg_id d) →
  storedOptions data sel d = getDropdownOptions data sel d.
Proof.
  unfold storedOptions, getDropdownOptions, isDependent.
  destruct (truthy (cfg_dependsOn d)); [done|].
  intros [|[l ->]]; done.
Qed.

(** The list of the context after one accepted option: the stored list,
    then the option. *)
Lemma getDropdownOptions_insertOption sel d aid o data :
  cfg_id d = aid → hasContext sel d = true →
  getDropdownOptions (insertOption config sel d aid o data) sel d
  = storedOptions data sel d ++ [o].
Proof.
  intros <-. unfold hasContext, insertOption, storedOptions, getDropdownOptions,
    isDependent.
  destruct (truthy (cfg_dependsOn d)); cbn [negb orb].
  - intros ->. cbn [negb].
    destruct (findRelation_addRelationOption (default "" (cfg_dependsOn d))
                (default "" (sel !! default "" (cfg_dependsOn d))) (cfg_id d) o data)
      as (i & r' & Hfind & Hopts).
    rewrite relations_pushChildRelations.
    unfold findRelation at 1. rewrite (list_find_app_l _ _ _ i r') by exact Hfind.
    rewrite Hopts. by destruct (findRelation (store_relations data) _ _ _) as [[? ?]|].
  - intros _. cbn [pushChildRelations addRootOption store_options].
    by rewrite lookup_insert_eq.
Qed.

Lemma insertOption_present sel d aid o data :
  cfg_id d = aid →
  isDependent d = true
  ∨ is_Some (store_options (insertOption config sel d aid o data) !! cfg_id d).
Proof.
  intros <-. unfold insertOption. destruct (isDependent d); [by left|right].
  cbn [pushChildRelations addRootOption store_options].
  by rewrite lookup_insert_eq.
Qed.

End Store.

(** ** More on the bulk import *)

Section ImportFacts.

Variable config : list DropdownConfig.

Lemma importLine_newData sel d aid existing acc line :
  newData (importLine config sel d aid existing acc line)
  = if isDuplicateLine existing line || negb (hasContext sel d)
    then newData acc
    else insertOption config sel d aid (optionOf (Str.trim line)) (newData acc).
Proof.
  unfold importLine, isDuplicateLine, hasContext, insertOption, isDependent.
  destruct (existsInImport _ _ _); [done|]. cbn [orb].
  destruct (truthy (cfg_dependsOn d)); cbn [negb orb]; [|done].
  by destruct (truthy (sel !! _)).
Qed.

Lemma foldl_importLine_extends sel d aid existing acc lines :
  storeExtends (newData acc)
    (newData (foldl (importLine config sel d aid existing) acc lines)).
Proof.
  revert acc. induction lines as [|line lines IH]; intros acc; cbn [foldl].
  - apply storeExtends_refl.
  - eapply storeExtends_trans; [|apply IH]. rewrite importLine_newData.
    destruct (_ || _); [apply storeExtends_refl|apply insertOption_extends].
Qed.

(** The stored list of the context after the loop: the list before it,
    then one option per accepted line, in the order of the lines. *)
Lemma foldl_importLine_stored sel d aid existing acc lines :
  cfg_id d = aid → hasContext sel d = true →
  storedOptions (newData (foldl (importLine config sel d aid existing) acc lines))
    sel d
  = storedOptions (newData acc) sel d
      ++ (optionOf <$> (Str.trim <$>
            filter (λ line, isDuplicateLine existing line = false) lines)).
Proof.
  intros Hid Hctx. revert acc.
  induction lines as [|line lines IH]; intros acc; cbn [foldl].
  - by rewrite filter_nil, app_nil_r.
  - rewrite IH, importLine_newData, Hctx, filter_cons. cbn [negb].
    rewrite orb_false_r. destruct (isDuplicateLine existing line) eqn:Hdup.
    + by rewrite decide_False by done.
    + rewrite decide_True by done.
      rewrite storedOptions_present by (by apply insertOption_present).
      rewrite getDropdownOptions_insertOption by done.
      by rewrite !fmap_cons, <- app_assoc.
Qed.

Lemma getDropdownOptions_stored data sel d :
  storedOptions data sel d ≠ [] →
  getDropdownOptions data sel d = storedOptions data sel d.
Proof.
  intros Hne. symmetry. apply storedOptions_present.
  unfold storedOptions in Hne. destruct (isDependent d); [by left|right].
  by destruct (store_options data !! cfg_id d).
Qed.

(** What the handler does once it is past its guards. *)
Lemma handleImportOptions_run fuel st aid d :
  activeDropdownId st = Some aid → aid ≠ "" →
  findConfig config aid = Some d →
  Str.trim (importText st) ≠ "" →
  handleImportOptions config fuel st
  = let result := importLines config (dropdownData st) (selections st) d aid
                    (importedLines (importText st)) in
    match addedOptions result with
    | [] => Some (toast (noNewOptionsToast (duplicateOptions result))
                    (set_importModalOpen false st))
    | _ =>
        pathDisplay ← pathDisplayOf config fuel (dropdownData st) (selections st)
                        d aid;
        Some (toast (importedToast (List.length (addedOptions result))
                       (List.length (duplicateOptions result))
                       (cfg_label d) pathDisplay)
                (set_dropdownData (newData result) (set_importModalOpen false st)))
    end.
Proof.
  intros Haid Hne Hd Htext. unfold handleImportOptions. rewrite Haid. cbn.
  destruct (String.eqb_spec aid "") as [|_]; [done|].
  destruct (String.eqb_spec (Str.trim (importText st)) "") as [|_]; [done|].
  cbn. rewrite Hd.
  destruct (importedLines (importText st)) as [|line lines] eqn:Hlines; [|done].
  by apply importedLines_nil in Hlines.
Qed.

Lemma handleImportOptions_guards fuel st :
  (truthy (activeDropdownId st) = false
   ∨ Str.trim (importText st) = ""
   ∨ findConfig config (default "" (activeDropdownId st)) = None) →
  handleImportOptions config fuel st = Some st.
Proof.
  unfold handleImportOptions. intros [-> | [-> | Hd]]; [done|by rewrite orb_true_r|].
  rewrite Hd. by destruct (_ || _).
Qed.

End ImportFacts.

Lemma truthy_Some_true s : truthy (Some s) = true ↔ s ≠ "".
Proof. simpl. destruct (String.eqb_spec s ""); split; done. Qed.

Lemma truthy_inv (o : option string) :
  truthy o = true → ∃ s, o = Some s ∧ s ≠ "".
Proof.
  destruct o as [s|]; [|done]. intros H%truthy_Some_true. eauto.
Qed.

(** The state after a bulk import that adds something. *)
Lemma handleImportOptions_imported (config : list DropdownConfig) (fuel : nat)
    (st st' : State) (aid : string) (d : DropdownConfig) :
  activeDropdownId st = Some aid → aid ≠ "" →
  findConfig config aid = Some d →
  hasContext (selections st) d = true →
  filter (λ line, isDuplicateLine
            (getDropdownOptions (dropdownData st) (selections st) d) line = false)
    (importedLines (importText st)) ≠ [] →
  handleImportOptions config fuel st = Some st' →
  getDropdownOptions (dropdownData st') (selections st') d
    = storedOptions (dropdownData st) (selections st) d
        ++ (optionOf <$>
              filter (λ line, isDuplicateLine
                  (getDropdownOptions (dropdownData st) (selections st) d) line
                  = false)
                (importedLines (importText st))) ∧
  importModalOpen st' = false ∧
  toast_title <$> toasts st' = (toast_title <$> toasts st) ++ ["Options Imported"] ∧
  mounted st' = mounted st ∧ initialized st' = initialized st ∧
  selections st' = selections st.
Proof.
  intros Haid Hne Hd Hctx Hnew H.
  pose proof (findConfig_Some _ _ _ Hd) as [_ Hid].
  assert (Str.trim (importText st) ≠ "") as Htext.
  { intros Hblank%importedLines_blank. by rewrite Hblank in Hnew. }
  rewrite (handleImportOptions_run config fuel st aid d) in H by done.
  cbn zeta in H.
  set (existing := getDropdownOptions (dropdownData st) (selections st) d) in *.
  set (lines := importedLines (importText st)) in *.
  assert (Str.trim <$> filter (λ line, isDuplicateLine existing line = false) lines
          = filter (λ line, isDuplicateLine existing line = false) lines) as Htrim.
  { rewrite <- (list_fmap_id (filter _ lines)) at 2.
    apply list_fmap_ext. intros i line Hline%list_elem_of_lookup_2.
    apply list_elem_of_filter in Hline as [_ Hline].
    by apply (importedLines_trim_fixed (importText st)). }
  destruct (foldl_importLine config (selections st) d aid existing
              (mkProgress (dropdownData st) [] []) lines) as [_ Hadded].
  rewrite Hctx in Hadded. cbn [addedOptions app] in Hadded.
  pose proof (foldl_importLine_stored config (selections st) d aid existing
                (mkProgress (dropdownData st) [] []) lines Hid Hctx) as Hstored.
  cbn [newData] in Hstored. rewrite Htrim in Hstored, Hadded.
  unfold importLines in H. fold existing in H.
  destruct (addedOptions (foldl _ _ lines)) as [|a added] eqn:Hadd.
  { by rewrite <- Hadded in Hnew. }
  destruct (pathDisplayOf _ _ _ _ _ _) as [path|]; [|done].
  injection H as <-. split_and!.
  - cbn. rewrite getDropdownOptions_stored; [exact Hstored|].
    rewrite Hstored. intros Hnil%app_eq_nil. destruct Hnil as [_ Hnil].
    apply fmap_nil_inv in Hnil. done.
  - done.
  - cbn. by rewrite fmap_app.
  - done.
  - done.
  - done.
Qed.

(** X11.  A bulk import that adds something stores, for the context of the
    dropdown, what was stored before followed by one option per accepted
    line, in the order of the lines; the option of a line has the line as
    its label and the value derived from it.  The dropdown then offers
    exactly that list, the import dialog is closed and one toast says so. *)
Theorem bulk_import_round_trip (config : list DropdownConfig) (fuel : nat)
    (st st' : State) (aid : string) (d : DropdownConfig) :
  activeDropdownId st = Some aid → aid ≠ "" →
  findConfig config aid = Some d →
  hasContext (selections st) d = true →
  filter (λ line, isDuplicateLine
            (getDropdownOptions (dropdownData st) (selections st) d) line = false)
    (importedLines (importText st)) ≠ [] →
  handleImportOptions config fuel st = Some st' →
  getDropdownOptions (dropdownData st') (selections st') d
    = storedOptions (dropdownData st) (selections st) d
        ++ (optionOf <$>
              filter (λ line, isDuplicateLine
                  (getDropdownOptions (dropdownData st) (selections st) d) line
                  = false)
                (importedLines (importText st))) ∧
  importModalOpen st' = false ∧
  toast_title <$> toasts st' = (toast_title <$> toasts st) ++ ["Options Imported"].
Proof.
  intros Haid Hne Hd Hctx Hnew H.
  destruct (handleImportOptions_imported config fuel st st' aid d)
    as (Hopts & Hmodal & Htoasts & _); done.
Qed.

Lemma bulk_import_round_trip_witness :
  ∃ st', handleImportOptions Sample.chain 5
           (Sample.importing "b" Sample.redRedBlue Sample.started) = Some st' ∧
         getDropdownOptions (dropdownData st') (selections st') Sample.dropdownB
         = [optionOf "Red"; optionOf "red"; optionOf "Blue"].
Proof.
  destruct (handleImportOptions Sample.chain 5
              (Sample.importing "b" Sample.redRedBlue Sample.started))
    as [st'|] eqn:H; [|by vm_compute in H].
  exists st'. split; [reflexivity|].
  destruct (bulk_import_round_trip Sample.chain 5
              (Sample.importing "b" Sample.redRedBlue Sample.started) st' "b"
              Sample.dropdownB) as [Hopts _];
    [reflexivity|discriminate|reflexivity|reflexivity|by vm_compute|exact H|].
  exact Hopts.
Defined.

(** X12.  A bulk import with some text, in which every line duplicates an
    option of the context, or for a dependent dropdown whose parent has
    no selected value, changes neither the store nor the snapshot: it
    closes the dialog and shows one red toast. *)
Theorem bulk_import_without_new_options (config : list DropdownConfig)
    (fuel : nat) (st : State) (aid : string) (d : DropdownConfig) :
  activeDropdownId st = Some aid → aid ≠ "" →
  findConfig config aid = Some d →
  Str.trim (importText st) ≠ "" →
  hasContext (selections st) d = false
  ∨ filter (λ line, isDuplicateLine
              (getDropdownOptions (dropdownData st) (selections st) d) line = false)
      (importedLines (importText st)) = [] →
  ∃ t, handleImportOptions config fuel st
         = Some (toast t (set_importModalOpen false st)) ∧
       toast_variant t = Destructive ∧ toast_title t = "No new options added".
Proof.
  intros Haid Hne Hd Htext Hnone.
  rewrite (handleImportOptions_run config fuel st aid d) by done. cbn zeta.
  destruct (foldl_importLine config (selections st) d aid
              (getDropdownOptions (dropdownData st) (selections st) d)
              (mkProgress (dropdownData st) [] [])
              (importedLines (importText st))) as [_ Hadded].
  unfold importLines. rewrite Hadded. cbn [addedOptions app].
  assert ((if hasContext (selections st) d
           then Str.trim <$> filter (λ line, isDuplicateLine
                    (getDropdownOptions (dropdownData st) (selections st) d) line
                    = false) (importedLines (importText st))
           else []) = []) as ->.
  { destruct Hnone as [-> | ->]; [done|]. by destruct (hasContext _ _). }
  by eexists.
Qed.

Lemma bulk_import_without_new_options_witness :
  ∃ t, handleImportOptions Sample.fruit 5
         (Sample.importing "f" "Apple" Sample.fruitStarted)
       = Some (toast t (set_importModalOpen false
                          (Sample.importing "f" "Apple" Sample.fruitStarted))) ∧
       toast_variant t = Destructive ∧ toast_title t = "No new options added".
Proof.
  apply (bulk_import_without_new_options Sample.fruit 5
           (Sample.importing "f" "Apple" Sample.fruitStarted) "f"
           (mkConfig "f" "Fruit" [mkOption "1" "apple"] None (Some true)));
    [reflexivity|discriminate|reflexivity|discriminate|].
  right. reflexivity.
Defined.

(** X13.  Whatever the state, a bulk import ends in one of three ways: the
    state is returned as it was; or the dialog is closed, the store is as
    before and one toast titled [No new options added] is shown; or the
    dialog is closed and one toast titled [Options Imported] is shown.
    The toast [No options to import] is never shown. *)
Theorem bulk_import_outcomes (config : list DropdownConfig) (fuel : nat)
    (st st' : State) :
  handleImportOptions config fuel st = Some st' →
  st' = st ∨
  (importModalOpen st' = false ∧
   ∃ t, toasts st' = toasts st ++ [t] ∧
        (toast_title t = "No new options added" ∧ toast_variant t = Destructive
         ∧ dropdownData st' = dropdownData st
         ∨ toast_title t = "Options Imported" ∧ toast_variant t = Default)).
Proof.
  intros H.
  destruct (truthy (activeDropdownId st)) eqn:Haid;
    [|rewrite handleImportOptions_guards in H by auto; left; congruence].
  destruct (decide (Str.trim (importText st) = "")) as [Hblank|Htext];
    [rewrite handleImportOptions_guards in H by auto; left; congruence|].
  destruct (findConfig config (default "" (activeDropdownId st))) as [d|] eqn:Hd;
    [|rewrite handleImportOptions_guards in H by auto; left; congruence].
  apply truthy_inv in Haid as (aid & Haid & Hne). rewrite Haid in Hd.
  rewrite (handleImportOptions_run config fuel st aid d) in H by done.
  cbn zeta in H. right.
  destruct (addedOptions _).
  - injection H as <-. split; [done|]. eexists. split; [done|]. by left.
  - destruct (pathDisplayOf _ _ _ _ _ _); [|done]. injection H as <-.
    split; [done|]. eexists. split; [done|]. by right.
Qed.

Lemma bulk_import_outcomes_witness :
  ∃ st' t, handleImportOptions Sample.chain 5
             (Sample.importing "b" Sample.redRedBlue Sample.started) = Some st' ∧
           toasts st' = [t] ∧ toast_title t = "Options Imported".
Proof.
  destruct (handleImportOptions Sample.chain 5
              (Sample.importing "b" Sample.redRedBlue Sample.started))
    as [st'|] eqn:H; [|by vm_compute in H].
  destruct (bulk_import_outcomes Sample.chain 5 _ st' H)
    as [->|(_ & t & Ht & [(Htitle & _ & Hdata)|[Htitle _]])].
  - exfalso. by vm_compute in H.
  - exfalso. vm_compute in H. injection H as <-. by vm_compute in Hdata.
  - by exists st', t.
Defined.

(** ** More on the single addition *)

Section SaveFacts.

Variable config : list DropdownConfig.

Lemma saveNewOption_guards fuel st :
  (truthy (activeDropdownId st) = false
   ∨ Str.trim (newOptionName st) = ""
   ∨ findConfig config (default "" (activeDropdownId st)) = None) →
  saveNewOption config fuel st = Some st.
Proof.
  unfold saveNewOption. intros [-> | [-> | Hd]]; [done|by rewrite orb_true_r|].
  rewrite Hd. by destruct (_ || _).
Qed.

(** What [saveNewOption] does once it is past its guards. *)
Lemma saveNewOption_run fuel st aid d :
  activeDropdownId st = Some aid → aid ≠ "" →
  findConfig config aid = Some d →
  Str.trim (newOptionName st) ≠ "" →
  saveNewOption config fuel st
  = let label := Str.trim (newOptionName st) in
    if existsInSave (getDropdownOptions (dropdownData st) (selections st) d)
         (Str.replaceWhitespace label)
    then Some (toast (mkToast Destructive "Option already exists"
                        (QUOTE +:+ label +:+ QUOTE
                         +:+ " already exists in this dropdown."))
                 st)
    else if hasContext (selections st) d
    then selectNewOption config fuel d aid (Str.replaceWhitespace label) label
           (selections st) (dropdownData st)
           (set_dropdownData
              (insertOption config (selections st) d aid (optionOf label)
                 (dropdownData st))
              (set_addOptionModalOpen false st))
    else Some st.
Proof.
  intros Haid Hne Hd Hname. unfold saveNewOption. rewrite Haid. cbn.
  destruct (String.eqb_spec aid "") as [|_]; [done|].
  destruct (String.eqb_spec (Str.trim (newOptionName st)) "") as [|_]; [done|].
  cbn. rewrite Hd. destruct (existsInSave _ _); [done|].
  unfold hasContext, insertOption, isDependent.
  destruct (truthy (cfg_dependsOn d)); cbn [negb orb]; [|done].
  by destruct (truthy (selections st !! _)).
Qed.

Lemma selectNewOption_state fuel d aid value label sel data st1 st' :
  selectNewOption config fuel d aid value label sel data st1 = Some st' →
  ∃ ds t, findDependentDropdowns config fuel aid = Some ds ∧
          toast_variant t = Default ∧ toast_title t = "Option Added" ∧
          st' = toast t
                  (onSelectionChange (clearDependents ds (<[aid := value]> sel))
                     (set_selections (clearDependents ds (<[aid := value]> sel))
                        st1)).
Proof.
  unfold selectNewOption.
  destruct (findDependentDropdowns config fuel aid) as [ds|]; [|done]. cbn.
  destruct (pathDisplayOf _ _ _ _ _ _) as [path|]; [|done]. cbn.
  intros [= <-]. eexists ds, (mkToast Default "Option Added" _). by split_and!.
Qed.

Lemma selectNewOption_returns rank fuel d aid value label sel data st1 :
  forallb (respectsRank rank) config = true →
  (rank aid < fuel)%nat → (maxRank rank config + 2 < fuel)%nat →
  is_Some (selectNewOption config fuel d aid value label sel data st1).
Proof.
  intros Hr Hlt1 Hlt2. unfold selectNewOption.
  destruct (findDependentDropdowns_terminates config rank fuel aid Hr Hlt1)
    as [ds ->]. cbn.
  by destruct (pathDisplayOf_terminates config rank fuel data sel d aid Hr Hlt2)
    as [path ->].
Qed.

Lemma saveNewOption_returns rank fuel st :
  forallb (respectsRank rank) config = true →
  (maxRank rank config + 2 < fuel)%nat →
  is_Some (saveNewOption config fuel st).
Proof.
  intros Hr Hlt. unfold saveNewOption. destruct (_ || _); [done|].
  destruct (findConfig config _) as [d|] eqn:Hd; [|done].
  apply findConfig_Some in Hd as [Hd Hid].
  pose proof (rank_le_maxRank config rank d Hd) as Hle. rewrite Hid in Hle.
  destruct (existsInSave _ _); [done|].
  destruct (negb (truthy (cfg_dependsOn d)));
    [apply (selectNewOption_returns rank); [done|lia|done]|].
  destruct (negb (truthy (selections st !! _))); [done|].
  apply (selectNewOption_returns rank); [done|lia|done].
Qed.

Lemma existsInSave_true existing value :
  existsInSave existing value = true ↔
  ∃ o, o ∈ existing ∧ Str.toLowerCase (opt_value o) = Str.toLowerCase value.
Proof.
  unfold existsInSave. rewrite existsb_exists. split.
  - intros (o & Ho%list_elem_of_In & Heq%String.eqb_eq). eauto.
  - intros (o & Ho%list_elem_of_In & Heq%String.eqb_eq). eauto.
Qed.

Lemma existsInSave_false existing value o :
  existsInSave existing value = false → o ∈ existing → opt_value o ≠ value.
Proof.
  intros Hnone Ho Heq. assert (existsInSave existing value = true) as Hsome.
  { apply existsInSave_true. exists o. by rewrite Heq. }
  congruence.
Qed.

(** The parent of a dropdown keeps its entry when the new option is
    selected: it is neither the dropdown nor one of its descendants, or
    the selection would not have returned. *)
Lemma parent_not_cleared fuel d p ds :
  d ∈ config → cfg_dependsOn d = Some p →
  findDependentDropdowns config fuel (cfg_id d) = Some ds →
  p ≠ cfg_id d ∧ p ∉ ds.
Proof.
  intros Hd Hp Hds.
  pose proof (descendant_child config p d Hd Hp) as Hchild. split.
  - intros ->. by rewrite (findDependentDropdowns_cycle config fuel _ Hchild) in Hds.
  - intros Hin%(findDependentDropdowns_descendant config _ _ _ Hds).
    rewrite (findDependentDropdowns_cycle config fuel (cfg_id d)) in Hds; [done|].
    by eapply descendant_trans.
Qed.

End SaveFacts.

Section SaveOutcome.

Variable config : list DropdownConfig.

Lemma getDropdownOptions_agree data sel sel' d :
  (∀ p, cfg_dependsOn d = Some p → sel !! p = sel' !! p) →
  getDropdownOptions data sel d = getDropdownOptions data sel' d.
Proof.
  intros Hagree. unfold getDropdownOptions.
  destruct (cfg_dependsOn d) as [p|]; [|done]. cbn.
  by rewrite (Hagree p eq_refl).
Qed.

(** The state after an addition that is accepted. *)
Lemma saveNewOption_saved fuel st st' aid d :
  activeDropdownId st = Some aid → aid ≠ "" →
  findConfig config aid = Some d →
  Str.trim (newOptionName st) ≠ "" →
  existsInSave (getDropdownOptions (dropdownData st) (selections st) d)
    (Str.replaceWhitespace (Str.trim (newOptionName st))) = false →
  hasContext (selections st) d = true →
  saveNewOption config fuel st = Some st' →
  ∃ ds t,
    findDependentDropdowns config fuel aid = Some ds ∧
    toast_variant t = Default ∧ toast_title t = "Option Added" ∧
    dropdownData st'
      = insertOption config (selections st) d aid
          (optionOf (Str.trim (newOptionName st))) (dropdownData st) ∧
    selections st'
      = clearDependents ds
          (<[aid := Str.replaceWhitespace (Str.trim (newOptionName st))]>
             (selections st)) ∧
    toasts st' = toasts st ++ [t] ∧
    addOptionModalOpen st' = false ∧
    getDropdownOptions (dropdownData st') (selections st') d
      = storedOptions (dropdownData st) (selections st) d
          ++ [optionOf (Str.trim (newOptionName st))].
Proof.
  intros Haid Hne Hd Hname Hnew Hctx H.
  rewrite (saveNewOption_run config fuel st aid d) in H by done. cbn zeta in H.
  rewrite Hnew, Hctx in H.
  apply selectNewOption_state in H as (ds & t & Hds & Hv & Ht & ->).
  exists ds, t. split_and!; try done.
  cbn [dropdownData selections toast onSelectionChange set_selections
       set_dropdownData set_addOptionModalOpen].
  apply findConfig_Some in Hd as [Hd Hid].
  rewrite <- (getDropdownOptions_agree _ (selections st)).
  - by apply getDropdownOptions_insertOption.
  - intros p Hp. subst aid.
    destruct (parent_not_cleared config fuel d p ds Hd Hp Hds) as [Hpne Hpds].
    by rewrite clearDependents_lookup, decide_False, lookup_insert_ne.
Qed.

End SaveOutcome.

(** X14.  A single addition that is accepted appends the option (label:
    the trimmed name, value: derived from it) to what is stored for the
    context of the dropdown, and the dropdown then offers exactly that
    list; the new value is selected, every descendant is cleared, the
    dialog is closed and one toast says so. *)
Theorem single_add_round_trip (config : list DropdownConfig) (fuel : nat)
    (st st' : State) (aid : string) (d : DropdownConfig) :
  activeDropdownId st = Some aid → aid ≠ "" →
  findConfig config aid = Some d →
  Str.trim (newOptionName st) ≠ "" →
  existsInSave (getDropdownOptions (dropdownData st) (selections st) d)
    (Str.replaceWhitespace (Str.trim (newOptionName st))) = false →
  hasContext (selections st) d = true →
  saveNewOption config fuel st = Some st' →
  getDropdownOptions (dropdownData st') (selections st') d
    = storedOptions (dropdownData st) (selections st) d
        ++ [optionOf (Str.trim (newOptionName st))] ∧
  selections st' !! aid
    = Some (Str.replaceWhitespace (Str.trim (newOptionName st))) ∧
  (∀ x, descendant config aid x → selections st' !! x = Some "") ∧
  addOptionModalOpen st' = false ∧
  toast_title <$> toasts st' = (toast_title <$> toasts st) ++ ["Option Added"].
Proof.
  intros Haid Hne Hd Hname Hnew Hctx H.
  destruct (saveNewOption_saved config fuel st st' aid d)
    as (ds & t & Hds & _ & Ht & _ & Hsel & Htoasts & Hmodal & Hopts); try done.
  split_and!; try done.
  - rewrite Hsel, clearDependents_lookup, decide_False; [apply lookup_insert_eq|].
    intros Hin%(findDependentDropdowns_descendant config _ _ _ Hds).
    by rewrite (findDependentDropdowns_cycle config fuel aid Hin) in Hds.
  - intros x Hx. rewrite Hsel, clearDependents_lookup, decide_True; [done|].
    by apply (findDependentDropdowns_descendant config _ _ _ Hds).
  - by rewrite Htoasts, fmap_app, <- Ht.
Qed.

Lemma single_add_round_trip_witness :
  ∃ st', saveNewOption Sample.chain 5 (Sample.naming "b" " Galaxy  S " Sample.started)
           = Some st' ∧
         getDropdownOptions (dropdownData st') (selections st') Sample.dropdownB
           = [mkOption "Galaxy-S" "Galaxy  S"] ∧
         selections st' !! "b" = Some "Galaxy-S".
Proof.
  destruct (saveNewOption Sample.chain 5
              (Sample.naming "b" " Galaxy  S " Sample.started))
    as [st'|] eqn:H; [|by vm_compute in H].
  exists st'. split; [reflexivity|].
  destruct (single_add_round_trip Sample.chain 5
              (Sample.naming "b" " Galaxy  S " Sample.started) st' "b"
              Sample.dropdownB) as (Hopts & Hsel & _);
    [reflexivity|discriminate|reflexivity|discriminate|reflexivity|reflexivity
    |exact H|].
  split; [exact Hopts|exact Hsel].
Defined.

(** X15.  A single addition whose derived value equals, up to case, the
    value of an option the dropdown offers is refused: one red toast
    titled [Option already exists] is shown and nothing else changes (the
    store, the snapshot, the dialog, the typed name). *)
Theorem single_add_rejects_value_duplicate (config : list DropdownConfig)
    (fuel : nat) (st : State) (aid : string) (d : DropdownConfig)
    (o : DropdownOption) :
  activeDropdownId st = Some aid → aid ≠ "" →
  findConfig config aid = Some d →
  Str.trim (newOptionName st) ≠ "" →
  o ∈ getDropdownOptions (dropdownData st) (selections st) d →
  Str.toLowerCase (opt_value o)
    = Str.toLowerCase (Str.replaceWhitespace (Str.trim (newOptionName st))) →
  ∃ t, saveNewOption config fuel st = Some (toast t st) ∧
       toast_variant t = Destructive ∧ toast_title t = "Option already exists".
Proof.
  intros Haid Hne Hd Hname Ho Heq.
  rewrite (saveNewOption_run config fuel st aid d) by done. cbn zeta.
  rewrite (proj2 (existsInSave_true _ _)) by eauto. by eexists.
Qed.

Lemma single_add_rejects_value_duplicate_witness :
  ∃ t, saveNewOption Sample.chain 5 (Sample.naming "a" "  X " Sample.started)
       = Some (toast t (Sample.naming "a" "  X " Sample.started)) ∧
       toast_variant t = Destructive ∧ toast_title t = "Option already exists".
Proof.
  apply (single_add_rejects_value_duplicate Sample.chain 5
           (Sample.naming "a" "  X " Sample.started) "a" Sample.dropdownA
           (mkOption "x" "X"));
    [reflexivity|discriminate|reflexivity|discriminate|by left|reflexivity].
Defined.

(** X16.  [saveNewOption] returns the state as it was, without any toast,
    when no dropdown is active, when the name is blank, when the active
    id is not in the configuration, and when the dropdown is dependent
    and its parent has no selected value. *)
Theorem single_add_silent_returns (config : list DropdownConfig) (fuel : nat)
    (st : State) :
  truthy (activeDropdownId st) = false
  ∨ Str.trim (newOptionName st) = ""
  ∨ findConfig config (default "" (activeDropdownId st)) = None
  ∨ (∃ d, findConfig config (default "" (activeDropdownId st)) = Some d ∧
          hasContext (selections st) d = false) →
  saveNewOption config fuel st = Some st.
Proof.
  intros [H|[H|[H|(d & Hd & Hctx)]]];
    [by apply saveNewOption_guards; auto..|].
  destruct (truthy (activeDropdownId st)) eqn:Haid;
    [|by apply saveNewOption_guards; auto].
  destruct (decide (Str.trim (newOptionName st) = "")) as [|Hname];
    [by apply saveNewOption_guards; auto|].
  apply truthy_inv in Haid as (aid & Haid & Hne). rewrite Haid in Hd. cbn in Hd.
  rewrite (saveNewOption_run config fuel st aid d) by done. cbn zeta.
  rewrite Hctx.
  assert (getDropdownOptions (dropdownData st) (selections st) d = []) as ->; [|done].
  unfold hasContext, isDependent in Hctx. unfold getDropdownOptions.
  destruct (truthy (cfg_dependsOn d)); [|done]. cbn in *. by rewrite Hctx.
Qed.

Lemma single_add_silent_returns_witness :
  saveNewOption Sample.chain 5 (Sample.naming "c" "Foo" Sample.started)
  = Some (Sample.naming "c" "Foo" Sample.started).
Proof.
  apply single_add_silent_returns. right; right; right.
  exists Sample.dropdownC. split; reflexivity.
Defined.

(** X17.  The options of the configuration are a fall-back only.  When
    the store holds no list for a root-level dropdown, the dropdown offers
    the options of its configuration; after the first addition it offers
    the new option alone. *)
Theorem first_addition_hides_seed_options (config : list DropdownConfig)
    (fuel : nat) (st st' : State) (aid : string) (d : DropdownConfig) :
  activeDropdownId st = Some aid → aid ≠ "" →
  findConfig config aid = Some d → isDependent d = false →
  store_options (dropdownData st) !! aid = None →
  Str.trim (newOptionName st) ≠ "" →
  existsInSave (cfg_options d)
    (Str.replaceWhitespace (Str.trim (newOptionName st))) = false →
  saveNewOption config fuel st = Some st' →
  getDropdownOptions (dropdownData st) (selections st) d = cfg_options d ∧
  getDropdownOptions (dropdownData st') (selections st') d
    = [optionOf (Str.trim (newOptionName st))].
Proof.
  intros Haid Hne Hd Hroot Hmissing Hname Hnew H.
  pose proof (findConfig_Some _ _ _ Hd) as [_ Hid].
  assert (getDropdownOptions (dropdownData st) (selections st) d = cfg_options d)
    as Hseed.
  { unfold getDropdownOptions. unfold isDependent in Hroot.
    by rewrite Hroot, Hid, Hmissing. }
  split; [done|].
  destruct (saveNewOption_saved config fuel st st' aid d)
    as (_ & _ & _ & _ & _ & _ & _ & _ & _ & Hopts); try done.
  - by rewrite Hseed.
  - unfold hasContext. by rewrite Hroot.
  - rewrite Hopts. unfold storedOptions. by rewrite Hroot, Hid, Hmissing.
Qed.

Lemma first_addition_hides_seed_options_witness :
  ∃ st', saveNewOption Sample.chain 5
           (Sample.naming "a" "Z" (Sample.fresh Demo.emptyData)) = Some st' ∧
         getDropdownOptions Demo.emptyData ∅ Sample.dropdownA
           = [mkOption "x" "X"; mkOption "y" "Y"] ∧
         getDropdownOptions (dropdownData st') (selections st') Sample.dropdownA
           = [mkOption "Z" "Z"].
Proof.
  destruct (saveNewOption Sample.chain 5
              (Sample.naming "a" "Z" (Sample.fresh Demo.emptyData)))
    as [st'|] eqn:H; [|by vm_compute in H].
  exists st'. split; [reflexivity|].
  apply (first_addition_hides_seed_options Sample.chain 5
           (Sample.naming "a" "Z" (Sample.fresh Demo.emptyData)) st' "a"
           Sample.dropdownA);
    [reflexivity|discriminate|reflexivity|reflexivity|reflexivity|discriminate
    |reflexivity|exact H].
Defined.

(** ** What both ways of adding options share *)

Lemma saveNewOption_extends config fuel st st' :
  saveNewOption config fuel st = Some st' →
  storeExtends (dropdownData st) (dropdownData st').
Proof.
  intros H.
  destruct (truthy (activeDropdownId st)) eqn:Haid;
    [|rewrite saveNewOption_guards in H by auto; injection H as <-;
      apply storeExtends_refl].
  destruct (decide (Str.trim (newOptionName st) = "")) as [|Hname];
    [rewrite saveNewOption_guards in H by auto; injection H as <-;
     apply storeExtends_refl|].
  destruct (findConfig config (default "" (activeDropdownId st))) as [d|] eqn:Hd;
    [|rewrite saveNewOption_guards in H by auto; injection H as <-;
      apply storeExtends_refl].
  apply truthy_inv in Haid as (aid & Haid & Hne). rewrite Haid in Hd. cbn in Hd.
  rewrite (saveNewOption_run config fuel st aid d) in H by done. cbn zeta in H.
  destruct (existsInSave _ _); [injection H as <-; apply storeExtends_refl|].
  destruct (hasContext _ _); [|injection H as <-; apply storeExtends_refl].
  apply selectNewOption_state in H as (ds & t & _ & _ & _ & ->).
  apply insertOption_extends.
Qed.

Lemma handleImportOptions_extends config fuel st st' :
  handleImportOptions config fuel st = Some st' →
  storeExtends (dropdownData st) (dropdownData st').
Proof.
  intros H.
  destruct (truthy (activeDropdownId st)) eqn:Haid;
    [|rewrite handleImportOptions_guards in H by auto; injection H as <-;
      apply storeExtends_refl].
  destruct (decide (Str.trim (importText st) = "")) as [|Htext];
    [rewrite handleImportOptions_guards in H by auto; injection H as <-;
     apply storeExtends_refl|].
  destruct (findConfig config (default "" (activeDropdownId st))) as [d|] eqn:Hd;
    [|rewrite handleImportOptions_guards in H by auto; injection H as <-;
      apply storeExtends_refl].
  apply truthy_inv in Haid as (aid & Haid & Hne). rewrite Haid in Hd. cbn in Hd.
  rewrite (handleImportOptions_run config fuel st aid d) in H by done.
  cbn zeta in H. destruct (addedOptions _).
  - injection H as <-. apply storeExtends_refl.
  - destruct (pathDisplayOf _ _ _ _ _ _); [|done]. injection H as <-.
    apply (foldl_importLine_extends config (selections st) d aid _
             (mkProgress (dropdownData st) [] [])).
Qed.

(** X18.  Adding options never removes, moves or rewrites anything that is
    stored.  After a single addition or a bulk import every list of root
    options is still there and every relation is still at its index with
    its triple, each with its former options as a prefix; so whatever a
    dropdown offered from the store, in any snapshot, it still offers,
    in the same order, possibly followed by new options. *)
Theorem authoring_only_appends (config : list DropdownConfig) (fuel : nat)
    (st st' : State) :
  saveNewOption config fuel st = Some st'
  ∨ handleImportOptions config fuel st = Some st' →
  storeExtends (dropdownData st) (dropdownData st') ∧
  ∀ sel d,
    isDependent d = true ∨ is_Some (store_options (dropdownData st) !! cfg_id d) →
    getDropdownOptions (dropdownData st) sel d
      `prefix_of` getDropdownOptions (dropdownData st') sel d.
Proof.
  intros H.
  assert (storeExtends (dropdownData st) (dropdownData st')) as Hext.
  { destruct H as [H|H];
      [by eapply saveNewOption_extends|by eapply handleImportOptions_extends]. }
  split; [done|]. intros sel d. by apply storeExtends_options.
Qed.

Lemma authoring_only_appends_witness :
  ∃ st', saveNewOption Sample.chain 5 (Sample.naming "a" "Z" Sample.started)
           = Some st' ∧
         [mkOption "x" "X"; mkOption "y" "Y"]
           `prefix_of` getDropdownOptions (dropdownData st') ∅ Sample.dropdownA.
Proof.
  destruct (saveNewOption Sample.chain 5 (Sample.naming "a" "Z" Sample.started))
    as [st'|] eqn:H; [|by vm_compute in H].
  exists st'. split; [reflexivity|].
  destruct (authoring_only_appends Sample.chain 5 _ st' (or_introl H)) as [_ Hp].
  apply (Hp ∅ Sample.dropdownA). right. by eexists.
Defined.

(** X19.  On a configuration without a cycle every way of adding options
    returns: [saveNewOption], the whole path through the dialogs of a
    single addition, and the whole path of a bulk import, in any state
    and for any input. *)
Theorem authoring_returns_without_cycle (config : list DropdownConfig)
    (st : State) (dropdownId name text : string) :
  acyclic config →
  (∃ fuel, is_Some (saveNewOption config fuel st)) ∧
  (∃ fuel, is_Some (singleAddFlow config fuel dropdownId name st)) ∧
  (∃ fuel, is_Some (bulkImportFlow config fuel dropdownId text st)).
Proof.
  intros [rank Hrank]. split_and!; exists (maxRank rank config + 3).
  - apply (saveNewOption_returns config rank); [done|lia].
  - unfold singleAddFlow, handleSelection. cbn.
    apply (saveNewOption_returns config rank); [done|lia].
  - unfold bulkImportFlow, handleSelection. cbn.
    apply (handleImportOptions_returns config rank); [done|lia].
Qed.

Lemma authoring_returns_without_cycle_witness :
  acyclic Sample.chain ∧
  (∃ fuel, is_Some (singleAddFlow Sample.chain fuel "b" "Foo" Sample.started)) ∧
  (∃ fuel, is_Some (bulkImportFlow Sample.chain fuel "b" Sample.redRedBlue
                      Sample.started)).
Proof.
  split; [exact chain_acyclic|].
  destruct (authoring_returns_without_cycle Sample.chain Sample.started "b"
              "Foo" Sample.redRedBlue chain_acyclic) as (_ & Hsingle & Hbulk).
  by split.
Defined.

(** ** The demonstration page *)

Lemma labelOr_nonempty value found : value ≠ "" → labelOr value found ≠ "".
Proof.
  intros Hne. unfold labelOr. destruct found as [[i o]|]; [|done].
  destruct (truthy (Some (opt_label o))) eqn:Hl; [|done].
  by apply truthy_Some_true.
Qed.

Lemma labelOr_origin value (l : list DropdownOption) :
  labelOr value (list_find (λ opt, opt_value opt = value) l) = value
  ∨ ∃ o, o ∈ l ∧ opt_value o = value
         ∧ opt_label o = labelOr value (list_find (λ opt, opt_value opt = value) l).
Proof.
  destruct (list_find _ l) as [[i o]|] eqn:Hfind; [|by left].
  apply list_find_Some in Hfind as (Hi%list_elem_of_lookup_2 & Ho & _).
  unfold labelOr. destruct (truthy (Some (opt_label o))); [|by left].
  right. by exists o.
Qed.

(** The page looks the label up in the list the component offers. *)
Lemma getReadableSelection_offered config data sel key value d :
  value ≠ "" → findConfig config key = Some d →
  getReadableSelection config (Some data) sel key value
  = labelOr value
      (list_find (λ opt, opt_value opt = value) (getDropdownOptions data sel d)).
Proof.
  intros Hv%truthy_Some_true Hd. unfold getReadableSelection.
  rewrite Hv, Hd. cbn [negb]. apply findConfig_Some in Hd as [_ <-].
  unfold getDropdownOptions.
  destruct (negb (truthy (cfg_dependsOn d))); [done|].
  destruct (negb (truthy (sel !! _))); [done|].
  by destruct (findRelation _ _ _ _) as [[i r]|].
Qed.

(** X20.  The text the page shows for a selection is empty for the empty
    value only.  For any other value, and a dropdown of the
    configuration, it is what the component's own list for that dropdown
    gives: the label of the first offered option with that value when it
    has a label, and the value itself otherwise. *)
Theorem readable_selection_follows_offered_options
    (config : list DropdownConfig) (data : option DataStore)
    (sel : gmap string string) (key value : string) :
  getReadableSelection config data sel key "" = "" ∧
  (value ≠ "" → getReadableSelection config data sel key value ≠ "") ∧
  (∀ store d, value ≠ "" → data = Some store → findConfig config key = Some d →
     getReadableSelection config data sel key value
     = labelOr value
         (list_find (λ opt, opt_value opt = value)
            (getDropdownOptions store sel d))).
Proof.
  split_and!.
  - done.
  - intros Hv. pose proof Hv as Ht%truthy_Some_true.
    unfold getReadableSelection. rewrite Ht. cbn [negb].
    destruct (findConfig config key) as [d|]; [|done].
    destruct (negb (truthy (cfg_dependsOn d))); [by apply labelOr_nonempty|].
    destruct data as [store|]; [|done].
    destruct (negb (truthy (sel !! _))); [done|].
    destruct (findRelation _ _ _ _) as [[i r]|]; [by apply labelOr_nonempty|done].
  - intros store d Hv -> Hd. by apply getReadableSelection_offered.
Qed.

Lemma readable_selection_follows_offered_options_witness :
  getReadableSelection Sample.chain (Some (dropdownData Sample.started))
    (selections Sample.started) "a" "x" = "X" ∧
  getReadableSelection Sample.chain None ∅ "b" "Foo" ≠ "".
Proof.
  destruct (readable_selection_follows_offered_options Sample.chain
              (Some (dropdownData Sample.started)) (selections Sample.started)
              "a" "x") as (_ & _ & Hfollow).
  destruct (readable_selection_follows_offered_options Sample.chain
              None ∅ "b" "Foo") as (_ & Hnonempty & _).
  split; [|by apply Hnonempty].
  rewrite (Hfollow (dropdownData Sample.started) Sample.dropdownA);
    [reflexivity|discriminate|reflexivity|reflexivity].
Defined.

Lemma list_find_app_last {A} (P : A → Prop) `{!∀ x, Decision (P x)} (l : list A) o :
  (∀ x, x ∈ l → ¬ P x) → P o → list_find P (l ++ [o]) = Some (List.length l, o).
Proof.
  intros Hnone Ho. rewrite list_find_app_r.
  - cbn. by rewrite decide_True.
  - apply list_find_None, Forall_forall. exact Hnone.
Qed.

Lemma elem_of_storedOptions data sel d o :
  o ∈ storedOptions data sel d → o ∈ getDropdownOptions data sel d.
Proof.
  unfold storedOptions, getDropdownOptions, isDependent.
  destruct (truthy (cfg_dependsOn d)); [done|]. cbn.
  destruct (store_options data !! cfg_id d); [done|]. by intros ?%elem_of_nil.
Qed.

(** X21.  Once a single addition is accepted, the page, given the store
    and the snapshot of the component, shows the typed (trimmed) name for
    the new selection of the dropdown. *)
Theorem page_shows_the_typed_name (config : list DropdownConfig) (fuel : nat)
    (st st' : State) (aid : string) (d : DropdownConfig) :
  activeDropdownId st = Some aid → aid ≠ "" →
  findConfig config aid = Some d →
  Str.trim (newOptionName st) ≠ "" →
  existsInSave (getDropdownOptions (dropdownData st) (selections st) d)
    (Str.replaceWhitespace (Str.trim (newOptionName st))) = false →
  hasContext (selections st) d = true →
  saveNewOption config fuel st = Some st' →
  ∃ value, selections st' !! aid = Some value ∧
           getReadableSelection config (Some (dropdownData st')) (selections st')
             aid value
           = Str.trim (newOptionName st).
Proof.
  intros Haid Hne Hd Hname Hnew Hctx H.
  destruct (saveNewOption_saved config fuel st st' aid d)
    as (ds & t & Hds & _ & _ & _ & Hsel & _ & _ & Hopts); try done.
  exists (Str.replaceWhitespace (Str.trim (newOptionName st))). split.
  - rewrite Hsel, clearDependents_lookup, decide_False; [apply lookup_insert_eq|].
    intros Hin%(findDependentDropdowns_descendant config _ _ _ Hds).
    by rewrite (findDependentDropdowns_cycle config fuel aid Hin) in Hds.
  - rewrite (getReadableSelection_offered config _ _ aid _ d);
      [|by apply replaceWhitespace_trim_nonempty|done].
    rewrite Hopts, list_find_app_last; [| |done].
    + unfold labelOr, optionOf. cbn [opt_label].
      by rewrite (proj2 (truthy_Some_true _) Hname).
    + intros x Hx%elem_of_storedOptions. by eapply existsInSave_false.
Qed.

Lemma page_shows_the_typed_name_witness :
  ∃ st' value,
    saveNewOption Sample.chain 5 (Sample.naming "b" " Galaxy  S " Sample.started)
      = Some st' ∧
    selections st' !! "b" = Some value ∧
    getReadableSelection Sample.chain (Some (dropdownData st')) (selections st')
      "b" value = "Galaxy  S".
Proof.
  destruct (saveNewOption Sample.chain 5
              (Sample.naming "b" " Galaxy  S " Sample.started))
    as [st'|] eqn:H; [|by vm_compute in H].
  destruct (page_shows_the_typed_name Sample.chain 5
              (Sample.naming "b" " Galaxy  S " Sample.started) st' "b"
              Sample.dropdownB) as (value & Hsel & Hshown);
    [reflexivity|discriminate|reflexivity|discriminate|reflexivity|reflexivity
    |exact H|].
  by exists st', value.
Defined.

(** ** Bulk import and the default selections *)

(** X22.  A bulk import does not select anything itself, but in a
    component in which nothing has been selected yet the effect that
    installs the defaults runs again once the store has changed: for a
    root-level dropdown that has just received options, it selects the
    first option the dropdown now offers. *)
Theorem bulk_import_then_defaults (config : list DropdownConfig) (fuel : nat)
    (st st' : State) (aid : string) (d : DropdownConfig) :
  NoDup (cfg_id <$> config) →
  mounted st = true → initialized st = false → selections st = ∅ →
  activeDropdownId st = Some aid → aid ≠ "" →
  findConfig config aid = Some d → isDependent d = false →
  filter (λ line, isDuplicateLine
            (getDropdownOptions (dropdownData st) (selections st) d) line = false)
    (importedLines (importText st)) ≠ [] →
  handleImportOptions config fuel st = Some st' →
  selections st' = ∅ ∧
  selections (initializeDefaults config st') !! aid
    = head (opt_value <$> getDropdownOptions (dropdownData st') (selections st') d) ∧
  is_Some (selections (initializeDefaults config st') !! aid).
Proof.
  intros Hnd Hm Hi Hsel Haid Hne Hd Hroot Hnew H.
  destruct (handleImportOptions_imported config fuel st st' aid d)
    as (Hopts & _ & _ & Hm' & Hi' & Hsel'); try done.
  { unfold hasContext. by rewrite Hroot. }
  rewrite Hm in Hm'. rewrite Hi in Hi'. rewrite Hsel in Hsel'.
  apply findConfig_Some in Hd as [Hd Hid].
  assert (initialSelectionsOf config (dropdownData st') !! aid
          = head (opt_value <$>
                    getDropdownOptions (dropdownData st') (selections st') d))
    as Hown.
  { unfold initialSelectionsOf. rewrite <- Hid.
    rewrite foldl_defaultStep_own by done.
    unfold defaultStep, getDropdownOptions. unfold isDependent in Hroot.
    rewrite Hroot. cbn [negb].
    destruct (default _ _) as [|first rest]; [done|]. cbn.
    apply lookup_insert_eq. }
  assert (is_Some (initialSelectionsOf config (dropdownData st') !! aid)) as Hsome.
  { rewrite Hown, Hopts.
    destruct (filter _ (importedLines (importText st))) as [|line lines]; [done|].
    destruct (storedOptions _ _ _); by eexists. }
  assert (selections (initializeDefaults config st')
          = initialSelectionsOf config (dropdownData st')) as ->.
  { unfold initializeDefaults. rewrite Hm', Hi', Hsel'. cbn.
    rewrite bool_decide_true by done. cbn.
    rewrite bool_decide_false; [done|].
    intros Hempty. rewrite Hempty, lookup_empty in Hsome. by destruct Hsome. }
  done.
Qed.

Lemma bulk_import_then_defaults_witness :
  ∃ st', handleImportOptions Demo.bare 5
           (Sample.importing "r" Sample.redRedBlue (mount Demo.bare None None))
         = Some st' ∧
         selections st' = ∅ ∧
         selections (initializeDefaults Demo.bare st') !! "r" = Some "Red".
Proof.
  destruct (handleImportOptions Demo.bare 5
              (Sample.importing "r" Sample.redRedBlue (mount Demo.bare None None)))
    as [st'|] eqn:H; [|by vm_compute in H].
  exists st'. split; [reflexivity|].
  destruct (bulk_import_then_defaults Demo.bare 5
              (Sample.importing "r" Sample.redRedBlue (mount Demo.bare None None))
              st' "r" (mkConfig "r" "Root" [] None (Some true)))
    as (Hsel & Hfirst & _);
    [apply (bool_decide_unpack _); by vm_compute|reflexivity|reflexivity
    |reflexivity|reflexivity|discriminate|reflexivity|reflexivity|by vm_compute
    |exact H|].
  split; [exact Hsel|]. rewrite Hfirst.
  vm_compute in H. injection H as <-. reflexivity.
Defined.

(** ** The dialogs *)

(** X23.  The path of a bulk import through the dialogs, started in a
    dropdown of the configuration, works on that dropdown and leaves the
    menu closed.  With a blank text the import dialog stays open and
    nothing is reported or stored; with any other text the dialog is
    closed and exactly one toast is shown. *)
Theorem import_dialog_closes_unless_blank (config : list DropdownConfig)
    (fuel : nat) (dropdownId text : string) (st st' : State)
    (d : DropdownConfig) :
  dropdownId ≠ "" → findConfig config dropdownId = Some d →
  bulkImportFlow config fuel dropdownId text st = Some st' →
  activeDropdownId st' = Some dropdownId ∧ initialMenuOpen st' = false ∧
  (Str.trim text = "" →
     importModalOpen st' = true ∧ toasts st' = toasts st ∧
     dropdownData st' = dropdownData st) ∧
  (Str.trim text ≠ "" →
     importModalOpen st' = false ∧ ∃ t, toasts st' = toasts st ++ [t]).
Proof.
  intros Hne Hd. unfold bulkImportFlow, handleSelection. cbn. intros H.
  destruct (decide (Str.trim text = "")) as [Hblank|Htext].
  - rewrite handleImportOptions_guards in H by (right; left; exact Hblank).
    injection H as <-. by split_and!.
  - erewrite (handleImportOptions_run config fuel _ dropdownId d) in H;
      [|reflexivity|done|done|done].
    cbn zeta in H. destruct (addedOptions _).
    + injection H as <-. split_and!; try done. intros _. split; [done|].
      by eexists.
    + destruct (pathDisplayOf _ _ _ _ _ _); [|done]. injection H as <-.
      split_and!; try done. intros _. split; [done|]. by eexists.
Qed.

Lemma import_dialog_closes_unless_blank_witness :
  ∃ st1 st2,
    bulkImportFlow Sample.chain 5 "b" Sample.blankText Sample.started = Some st1 ∧
    importModalOpen st1 = true ∧ toasts st1 = [] ∧
    bulkImportFlow Sample.chain 5 "b" Sample.redRedBlue Sample.started = Some st2 ∧
    importModalOpen st2 = false.
Proof.
  destruct (bulkImportFlow Sample.chain 5 "b" Sample.blankText Sample.started)
    as [st1|] eqn:H1; [|by vm_compute in H1].
  destruct (bulkImportFlow Sample.chain 5 "b" Sample.redRedBlue Sample.started)
    as [st2|] eqn:H2; [|by vm_compute in H2].
  destruct (import_dialog_closes_unless_blank Sample.chain 5 "b" Sample.blankText
              Sample.started st1 Sample.dropdownB)
    as (_ & _ & Hblank & _); [discriminate|reflexivity|exact H1|].
  destruct (import_dialog_closes_unless_blank Sample.chain 5 "b" Sample.redRedBlue
              Sample.started st2 Sample.dropdownB)
    as (_ & _ & _ & Hclosed); [discriminate|reflexivity|exact H2|].
  destruct (Hblank eq_refl) as (Hopen & Htoasts & _).
  destruct Hclosed as [Hclosed _]; [discriminate|].
  by exists st1, st2.
Defined.

(** X24.  The path of a single addition through the dialogs, started in a
    dropdown of the configuration.  When the name is accepted (not blank,
    no offered option with the same value up to case, a context to write
    to) the dialog is closed.  Otherwise the dialog stays open with the
    name as typed, and the store and the snapshot are as before. *)
Theorem add_dialog_stays_open_on_refusal (config : list DropdownConfig)
    (fuel : nat) (dropdownId name : string) (st st' : State)
    (d : DropdownConfig) :
  dropdownId ≠ "" → findConfig config dropdownId = Some d →
  singleAddFlow config fuel dropdownId name st = Some st' →
  (Str.trim name ≠ "" →
   existsInSave (getDropdownOptions (dropdownData st) (selections st) d)
     (Str.replaceWhitespace (Str.trim name)) = false →
   hasContext (selections st) d = true →
   addOptionModalOpen st' = false ∧ initialMenuOpen st' = false) ∧
  (Str.trim name = ""
   ∨ existsInSave (getDropdownOptions (dropdownData st) (selections st) d)
       (Str.replaceWhitespace (Str.trim name)) = true
   ∨ hasContext (selections st) d = false →
   addOptionModalOpen st' = true ∧ newOptionName st' = name ∧
   dropdownData st' = dropdownData st ∧ selections st' = selections st).
Proof.
  intros Hne Hd. unfold singleAddFlow, handleSelection. cbn. intros H.
  destruct (decide (Str.trim name = "")) as [Hblank|Hname].
  - rewrite saveNewOption_guards in H by (right; left; exact Hblank).
    injection H as <-. split; [done|]. by intros _.
  - erewrite (saveNewOption_run config fuel _ dropdownId d) in H;
      [|reflexivity|done|done|done].
    cbn zeta in H.
    cbn [dropdownData selections newOptionName set_newOptionName
         handleAddSingleOption set_addOptionModalOpen set_initialMenuOpen
         set_activeDropdownId] in H.
    destruct (existsInSave _ _) eqn:Hdup.
    { injection H as <-. split; [done|]. by intros _. }
    destruct (hasContext _ _) eqn:Hctx.
    + apply selectNewOption_state in H as (ds & t & _ & _ & _ & ->).
      split; [done|]. by intros [?|[?|?]].
    + injection H as <-. split; [done|]. by intros _.
Qed.

Lemma add_dialog_stays_open_on_refusal_witness :
  ∃ st1 st2,
    singleAddFlow Sample.chain 5 "a" "x" Sample.started = Some st1 ∧
    addOptionModalOpen st1 = true ∧ newOptionName st1 = "x" ∧
    singleAddFlow Sample.chain 5 "a" "Z" Sample.started = Some st2 ∧
    addOptionModalOpen st2 = false.
Proof.
  destruct (singleAddFlow Sample.chain 5 "a" "x" Sample.started)
    as [st1|] eqn:H1; [|by vm_compute in H1].
  destruct (singleAddFlow Sample.chain 5 "a" "Z" Sample.started)
    as [st2|] eqn:H2; [|by vm_compute in H2].
  destruct (add_dialog_stays_open_on_refusal Sample.chain 5 "a" "x"
              Sample.started st1 Sample.dropdownA)
    as (_ & Hrefused); [discriminate|reflexivity|exact H1|].
  destruct (add_dialog_stays_open_on_refusal Sample.chain 5 "a" "Z"
              Sample.started st2 Sample.dropdownA)
    as (Haccepted & _); [discriminate|reflexivity|exact H2|].
  destruct Hrefused as (Hopen & Hkept & _); [right; left; reflexivity|].
  destruct Haccepted as [Hclosed _]; [discriminate|reflexivity|reflexivity|].
  by exists st1, st2.
Defined.

(** ** No dropdown is listed twice *)

Section Once.

Variable config : list DropdownConfig.
Hypothesis unique : NoDup (cfg_id <$> config).

Lemma unique_config d d' : d ∈ config → d' ∈ config → cfg_id d = cfg_id d' → d = d'.
Proof.
  clear -unique. induction config as [|d0 l IH]; intros Hd Hd' Hid.
  - by apply elem_of_nil in Hd.
  - rewrite fmap_cons in unique. apply NoDup_cons in unique as [Hd0 Hnd].
    apply elem_of_cons in Hd as [->|Hd]; apply elem_of_cons in Hd' as [->|Hd'].
    + done.
    + destruct Hd0. rewrite Hid. by apply list_elem_of_fmap_2.
    + destruct Hd0. rewrite <- Hid. by apply list_elem_of_fmap_2.
    + by apply IH.
Qed.

(** The last step of a descent: the dropdown reached depends on the
    starting id or on one of its descendants. *)
Lemma descendant_last a x :
  descendant config a x →
  ∃ dx, dx ∈ config ∧ cfg_id dx = x ∧
        (cfg_dependsOn dx = Some a
         ∨ ∃ q, cfg_dependsOn dx = Some q ∧ descendant config a q).
Proof.
  induction 1 as [a d Hd Hp|a d x Hd Hp Hbelow IH].
  - exists d. split_and!; [done..|by left].
  - destruct IH as (dx & Hdx & Hid & [Hq|(q & Hq & Hdesc)]).
    + exists dx. split_and!; [done..|]. right. exists (cfg_id d). split; [done|].
      by apply descendant_child.
    + exists dx. split_and!; [done..|]. right. exists q. split; [done|].
      by apply descendant_below with d.
Qed.

(** With unique ids, a dropdown that depends on [p] has [p] directly
    above it in every descent that reaches it. *)
Lemma descendant_parent a d p :
  d ∈ config → cfg_dependsOn d = Some p →
  descendant config a (cfg_id d) → a = p ∨ descendant config a p.
Proof.
  intros Hd Hp (dx & Hdx & Hid & Hlast)%descendant_last.
  rewrite (unique_config dx d Hdx Hd Hid) in Hlast.
  destruct Hlast as [Ha|(q & Hq & Hdesc)]; [left; congruence|right].
  by replace p with q by congruence.
Qed.

Lemma descendant_comparable a b x :
  descendant config a x → descendant config b x →
  a = b ∨ descendant config a b ∨ descendant config b a.
Proof.
  intros Ha. revert b. induction Ha as [a d Hd Hp|a d x Hd Hp _ IH]; intros b Hb.
  - destruct (descendant_parent b d a Hd Hp Hb) as [->|?]; auto.
  - destruct (IH b Hb) as [<-|[Hdb|Hbd]].
    + right; left. by apply descendant_child.
    + right; left. by apply descendant_below with d.
    + destruct (descendant_parent b d a Hd Hp Hbd) as [->|?]; auto.
Qed.

Lemma pushDescendants_NoDup rec children acc r :
  NoDup children → NoDup acc →
  (∀ c sub, c ∈ children → rec c = Some sub →
     NoDup sub ∧ ∀ x, x ∈ sub → x ∉ acc) →
  (∀ c1 c2 s1 s2 x, c1 ∈ children → c2 ∈ children → c1 ≠ c2 →
     rec c1 = Some s1 → rec c2 = Some s2 → x ∈ s1 → x ∉ s2) →
  pushDescendants rec children acc = Some r → NoDup r.
Proof.
  revert acc. induction children as [|c cs IH]; intros acc Hcs Hacc Hsub Hpair H.
  - by injection H as <-.
  - apply NoDup_cons in Hcs as [Hc Hcs]. cbn in H.
    destruct (rec c) as [sub|] eqn:Hrec; [|done]. cbn in H.
    destruct (Hsub c sub) as [Hnd Hdisj]; [by left|done|].
    apply (IH (acc ++ sub)); [done| | | |done].
    + apply NoDup_app. split_and!; [done| |done].
      intros x Hx Hx'. by apply (Hdisj x).
    + intros c' sub' Hc' Hrec'. destruct (Hsub c' sub') as [Hnd' Hdisj'];
        [by right|done|].
      split; [done|]. intros x Hx [Hin|Hin]%elem_of_app; [by apply (Hdisj' x)|].
      apply (Hpair c c' sub sub' x); [by left|by right| |done..].
      intros ->. done.
    + intros c1 c2 s1 s2 x Hc1 Hc2. apply Hpair; by right.
Qed.

Lemma directChildren_NoDup p : NoDup (cfg_id <$> childDropdownsOf config p).
Proof.
  unfold childDropdownsOf. clear -unique.
  induction config as [|d l IH]; [constructor|].
  rewrite fmap_cons in unique. apply NoDup_cons in unique as [Hd Hnd].
  rewrite filter_cons. case_decide; [|by apply IH].
  rewrite fmap_cons. apply NoDup_cons. split; [|by apply IH].
  intros (d' & Hid & [_ Hd']%list_elem_of_filter)%list_elem_of_fmap.
  apply Hd. rewrite Hid. by apply list_elem_of_fmap_2.
Qed.

Lemma findDependentDropdowns_NoDup fuel p r :
  findDependentDropdowns config fuel p = Some r → NoDup r.
Proof.
  revert p r. induction fuel as [|fuel IH]; intros p r H; [done|].
  cbn [findDependentDropdowns] in H.
  assert (∀ c sub, c ∈ cfg_id <$> childDropdownsOf config p →
            findDependentDropdowns config fuel c = Some sub →
            ¬ descendant config c c ∧ ¬ descendant config c p ∧ c ≠ p) as Hsafe.
  { intros c sub (d & Hd & Hp & ->)%elem_of_directChildren Hsub.
    pose proof (descendant_child config p d Hd Hp) as Hchild.
    assert (¬ descendant config (cfg_id d) (cfg_id d)) as Hnc.
    { intros Hc. by rewrite (findDependentDropdowns_cycle config fuel _ Hc) in Hsub. }
    split_and!; [done| |].
    - intros Hup. apply Hnc. by eapply descendant_trans.
    - intros Heq. apply Hnc. by rewrite Heq in Hchild |- *. }
  eapply pushDescendants_NoDup; [apply directChildren_NoDup..| | |exact H].
  - intros c sub Hc Hsub. split; [by eapply IH|].
    destruct (Hsafe c sub Hc Hsub) as (Hnc & Hncp & Hne).
    intros x Hx%(findDependentDropdowns_descendant config _ _ _ Hsub)
      (dx & Hdx & Hpx & ->)%elem_of_directChildren.
    destruct (descendant_parent c dx p Hdx Hpx Hx) as [?|?]; done.
  - intros c1 c2 s1 s2 x Hc1 Hc2 Hne Hs1 Hs2
      Hx1%(findDependentDropdowns_descendant config _ _ _ Hs1)
      Hx2%(findDependentDropdowns_descendant config _ _ _ Hs2).
    destruct (Hsafe c1 s1 Hc1 Hs1) as (_ & Hn1 & Hne1).
    destruct (Hsafe c2 s2 Hc2 Hs2) as (_ & Hn2 & Hne2).
    apply elem_of_directChildren in Hc1 as (d1 & Hd1 & Hp1 & ->).
    apply elem_of_directChildren in Hc2 as (d2 & Hd2 & Hp2 & ->).
    destruct (descendant_comparable _ _ _ Hx1 Hx2) as [?|[H12|H21]]; [done|..].
    + destruct (descendant_parent _ d2 p Hd2 Hp2 H12); done.
    + destruct (descendant_parent _ d1 p Hd1 Hp1 H21); done.
Qed.

End Once.

(** X25.  With unique ids, the list of dependent dropdowns that
    [findDependentDropdowns] returns names every descendant exactly once,
    and never the dropdown it was asked about. *)
Theorem descendants_listed_once (config : list DropdownConfig) (fuel : nat)
    (p : string) (r : list string) :
  NoDup (cfg_id <$> config) →
  findDependentDropdowns config fuel p = Some r →
  NoDup r ∧ (p ∉ r) ∧ (∀ x, x ∈ r ↔ descendant config p x).
Proof.
  intros Hnd H. split_and!.
  - by eapply findDependentDropdowns_NoDup.
  - intros Hin%(findDependentDropdowns_descendant config _ _ _ H).
    by rewrite (findDependentDropdowns_cycle config fuel p Hin) in H.
  - by apply findDependentDropdowns_descendant with fuel.
Qed.

Lemma descendants_listed_once_witness :
  NoDup (cfg_id <$> Sample.chain) ∧
  findDependentDropdowns Sample.chain 3 "a" = Some ["b"; "c"] ∧
  NoDup ["b"; "c"].
Proof.
  split; [exact chain_ids_unique|]. split; [reflexivity|].
  exact (proj1 (descendants_listed_once Sample.chain 3 "a" ["b"; "c"]
                  chain_ids_unique eq_refl)).
Defined.
